(** * github-canvas-grader: a shallow embedding of [github_canvas_grader.py]

    The grader reads the conclusion of the latest GitHub Actions run of every
    student repository of an assignment and posts a grade to Canvas.  The
    Python functions are embedded as Rocq functions.  The third-party clients
    the script calls (ghapi, canvasapi, gspread, pandas, dateutil, json, the
    file system) are collaborators: they are fields of the record
    [Collaborators], and every statement below holds for all of them.

    Layout: the Python runtime values the script relies on, the base64
    transport encoding, the functions of the script in source order, a set
    of test doubles, the vocabulary of the statements, and then the
    lemmas. *)

From Stdlib Require Import ZArith List String Ascii Bool Lia.
From Stdlib Require Import Floats.PrimFloat Floats.SpecFloat Floats.FloatOps.
Import ListNotations.

Open Scope string_scope.
Open Scope Z_scope.

(* ================================================================== *)
(** * Python runtime values *)
(* ================================================================== *)

(** Exception classes the script can meet.  [is_ValueError] is Python's
    [isinstance(e, ValueError)]: [binascii.Error], [json.JSONDecodeError],
    [UnicodeEncodeError] and [UnicodeDecodeError] derive from [ValueError];
    the gspread, requests and canvasapi classes and the [OSError] family do
    not. *)
Inductive exn : Type :=
| ValueError
| BinasciiError
| JSONDecodeError
| UnicodeEncodeError
| UnicodeDecodeError
| KeyError
| NameError
| AttributeError
| TypeError
| FileNotFoundError
| PermissionError
| ConnectionError
| SpreadsheetNotFound
| APIError
| CanvasException
| OtherException (cls : string).

Definition is_ValueError (e : exn) : bool :=
  match e with
  | ValueError | BinasciiError | JSONDecodeError
  | UnicodeEncodeError | UnicodeDecodeError => true
  | _ => false
  end.

(** A Python call either returns a value or raises. *)
Inductive outcome (A : Type) : Type :=
| Ok (a : A)
| Raise (e : exn).
Arguments Ok {A} a.
Arguments Raise {A} e.

Definition obind {A B : Type} (m : outcome A) (k : A -> outcome B) : outcome B :=
  match m with
  | Ok a => k a
  | Raise e => Raise e
  end.

Definition omap {A B : Type} (f : A -> B) (m : outcome A) : outcome B :=
  match m with
  | Ok a => Ok (f a)
  | Raise e => Raise e
  end.

Declare Scope py_scope.
Delimit Scope py_scope with py.
Notation "x <- m ;; k" := (obind m (fun x => k))
  (at level 61, m at next level, right associativity) : py_scope.
Notation "' p <- m ;; k" := (obind m (fun x => let p := x in k))
  (at level 61, p pattern, m at next level, right associativity) : py_scope.

(** Numbers that reach the gradebook: the script posts either the int [0] or
    a float. *)
Inductive pyval : Type :=
| PyInt (z : Z)
| PyFloat (f : float).

(** Python's [==] between an int and a float compares the exact values. *)
Definition int_eq_float (z : Z) (f : float) : bool :=
  match Prim2SF f with
  | S754_zero _ => z =? 0
  | S754_finite s m e =>
      let v := if s then Z.neg m else Z.pos m in
      if 0 <=? e then z =? v * 2 ^ e else z * 2 ^ (- e) =? v
  | _ => false
  end.

Definition py_eq (a b : pyval) : bool :=
  match a, b with
  | PyInt x, PyInt y => x =? y
  | PyFloat x, PyFloat y => PrimFloat.eqb x y
  | PyInt x, PyFloat y => int_eq_float x y
  | PyFloat x, PyInt y => int_eq_float y x
  end.

(** ** Strings *)

(** [str.lower] on the 8-bit characters the model carries. *)
Definition lower_ascii (c : ascii) : ascii :=
  if (Ascii.leb "A" c && Ascii.leb c "Z")%bool
  then ascii_of_nat (nat_of_ascii c + 32)
  else c.

Fixpoint lower (s : string) : string :=
  match s with
  | EmptyString => EmptyString
  | String c s' => String (lower_ascii c) (lower s')
  end.

(** [s.split(sep)] for a one-character separator: never empty, the pieces
    hold no separator. *)
Fixpoint split (sep : ascii) (s : string) : list string :=
  match s with
  | EmptyString => [EmptyString]
  | String c s' =>
      if Ascii.eqb c sep then EmptyString :: split sep s'
      else match split sep s' with
           | piece :: pieces => String c piece :: pieces
           | [] => [String c EmptyString]
           end
  end.

(** [sep.join(pieces)]. *)
Fixpoint join (sep : string) (pieces : list string) : string :=
  match pieces with
  | [] => EmptyString
  | [p] => p
  | p :: rest => p ++ sep ++ join sep rest
  end.

(** [needle in hay] on strings: substring test. *)
Fixpoint contains (needle hay : string) : bool :=
  if String.prefix needle hay then true
  else match hay with
       | EmptyString => false
       | String _ hay' => contains needle hay'
       end.

(** A character occurs in a string. *)
Fixpoint occurs (c : ascii) (s : string) : bool :=
  match s with
  | EmptyString => false
  | String d s' => (Ascii.eqb d c || occurs c s')%bool
  end.

(** ** Bytes, the ascii codec and base64

    A [bytes] object is a list of integers in [0, 256).  [ord] and [chr] are
    Python's; [str_encode_ascii] is [s.encode('ascii')] and
    [bytes_decode_ascii] is [b.decode('ascii')]. *)

Definition is_byte (b : Z) : Prop := 0 <= b < 256.

Definition ord (c : ascii) : Z := Z.of_N (N_of_ascii c).
Definition chr (z : Z) : ascii := ascii_of_N (Z.to_N z).

Fixpoint ords (s : string) : list Z :=
  match s with
  | EmptyString => []
  | String c s' => ord c :: ords s'
  end.

Fixpoint str_encode_ascii (s : string) : outcome (list Z) :=
  match s with
  | EmptyString => Ok []
  | String c s' =>
      if ord c <? 128 then omap (cons (ord c)) (str_encode_ascii s')
      else Raise UnicodeEncodeError
  end.

Fixpoint bytes_decode_ascii (bs : list Z) : outcome string :=
  match bs with
  | [] => Ok EmptyString
  | b :: bs' =>
      if (0 <=? b) && (b <? 128) then omap (String (chr b)) (bytes_decode_ascii bs')
      else Raise UnicodeDecodeError
  end.

(** The base64 alphabet of RFC 4648 as CPython's [binascii] tabulates it. *)
Definition table_b2a_base64 : list Z :=
  ords "ABCDEFGHIJKLMNOPQRSTUVWXYZabcdefghijklmnopqrstuvwxyz0123456789+/".

Definition BASE64_PAD : Z := 61.

Definition b2a (i : Z) : Z := nth (Z.to_nat i) table_b2a_base64 0.

Fixpoint index_of (ch : Z) (tbl : list Z) (i : Z) : option Z :=
  match tbl with
  | [] => None
  | x :: tbl' => if x =? ch then Some i else index_of ch tbl' (i + 1)
  end.

Definition a2b (ch : Z) : option Z := index_of ch table_b2a_base64 0.

(** The four 6-bit groups of three bytes. *)
Definition sextet1 (a : Z) : Z := Z.shiftr a 2.
Definition sextet2 (a b : Z) : Z := Z.lor (Z.shiftl (Z.land a 3) 4) (Z.shiftr b 4).
Definition sextet3 (b c : Z) : Z := Z.lor (Z.shiftl (Z.land b 15) 2) (Z.shiftr c 6).
Definition sextet4 (c : Z) : Z := Z.land c 63.

(** [base64.b64encode]: three bytes give four characters, a last group of
    one or two bytes is padded with [=]. *)
Fixpoint b64encode (bin : list Z) : list Z :=
  match bin with
  | [] => []
  | [a] =>
      [b2a (sextet1 a); b2a (Z.shiftl (Z.land a 3) 4); BASE64_PAD; BASE64_PAD]
  | [a; b] =>
      [b2a (sextet1 a); b2a (sextet2 a b);
       b2a (Z.shiftl (Z.land b 15) 2); BASE64_PAD]
  | a :: b :: c :: rest =>
      b2a (sextet1 a) :: b2a (sextet2 a b) :: b2a (sextet3 b c)
        :: b2a (sextet4 c) :: b64encode rest
  end.

(** The decoding loop of [binascii.a2b_base64] in its default, non-strict
    mode: characters outside the alphabet are skipped, a complete pad
    sequence ends the input, and an unfinished quad is an error. *)
Fixpoint a2b_base64_loop (quad_pos leftchar pads : Z) (data : list Z)
  : outcome (list Z) :=
  match data with
  | [] => if quad_pos =? 0 then Ok [] else Raise BinasciiError
  | ch :: rest =>
      if ch =? BASE64_PAD then
        if (2 <=? quad_pos) && (4 <=? quad_pos + (pads + 1)) then Ok []
        else a2b_base64_loop quad_pos leftchar
               (if 2 <=? quad_pos then pads + 1 else pads) rest
      else
        match a2b ch with
        | None => a2b_base64_loop quad_pos leftchar pads rest
        | Some this_ch =>
            if quad_pos =? 0 then a2b_base64_loop 1 this_ch 0 rest
            else if quad_pos =? 1 then
              omap (cons (Z.lor (Z.shiftl leftchar 2) (Z.shiftr this_ch 4)))
                   (a2b_base64_loop 2 (Z.land this_ch 15) 0 rest)
            else if quad_pos =? 2 then
              omap (cons (Z.lor (Z.shiftl leftchar 4) (Z.shiftr this_ch 2)))
                   (a2b_base64_loop 3 (Z.land this_ch 3) 0 rest)
            else
              omap (cons (Z.lor (Z.shiftl leftchar 6) this_ch))
                   (a2b_base64_loop 0 0 0 rest)
        end
  end.

(** [base64.b64decode] of a [str]: the text must be ascii ([ValueError]
    otherwise), then the loop above runs. *)
Definition b64decode (s : string) : outcome (list Z) :=
  match str_encode_ascii s with
  | Ok data => a2b_base64_loop 0 0 0 data
  | Raise _ => Raise ValueError
  end.

(* ================================================================== *)
(** * Data of the script *)
(* ================================================================== *)

(** [dateutil.relativedelta.relativedelta]: the fields of a relative
    difference between two datetimes. *)
Record relativedelta : Type := {
  years : Z;
  months : Z;
  days : Z;
  hours : Z;
  minutes : Z;
  seconds : Z
}.

(** One record of the identity table: the columns ['Github Username'] and
    ['EID']. *)
Record identity_record : Type := {
  col_Github_Username : string;
  col_EID : string
}.

(** The frame after [set_index(['Github Username'])]: index label and EID
    of each row, in row order; labels may repeat. *)
Definition dataframe : Type := list (string * string).

(** What [df.loc[label, "EID"]] evaluates to: the cell when the label is
    unique, a series of cells when several rows carry it. *)
Inductive loc_value : Type :=
| Scalar (v : string)
| Series (vs : list string).

Definition loc (df : dataframe) (label : string) : outcome loc_value :=
  match filter (fun row => String.eqb (fst row) label) df with
  | [] => Raise KeyError
  | [row] => Ok (Scalar (snd row))
  | rows => Ok (Series (map snd rows))
  end.

(** One element of [runs['workflow_runs']]; [conclusion] is null while the
    run is in progress. *)
Record workflow_run : Type := {
  run_id : Z;
  run_name : string;
  run_head_commit_timestamp : string;
  run_conclusion : option string
}.

(** The answer of [list_workflow_runs_for_repo]. *)
Record workflow_runs_page : Type := {
  total_count : Z;
  workflow_runs : list workflow_run
}.

(** One element of [course.get_assignments()]. *)
Record assignment_entry : Type := {
  entry_name : string;
  entry_id : Z
}.

(** The docopt dictionary, restricted to the keys of a grading run. *)
Record cli_args : Type := {
  arg_assignment_name : string;
  arg_due : bool;
  arg_DATE : string;
  arg_TIME : string;
  arg_TIME_ZONE : string;
  arg_MULTIPLIER : string
}.

(** What the script prints. *)
Inductive message : Type :=
| MsgErrorReadingSheet
| MsgNoUsernameMap
| MsgNoAssignmentId (assignment_name : string)
| MsgGrading (assignment_name : string)
| MsgFoundRepos
| MsgRepo (repo : string)
| MsgUpdatedGrade (canvas_id : Z) (score : pyval)
| MsgNoWorkflowRuns (repo : string).

(** What an observer of a run sees: a printed line, or a call of
    [submission.edit(submission={'posted_grade': score})] for a gradebook
    user. *)
Inductive event : Type :=
| Printed (m : message)
| EditCalled (canvas_id : Z) (posted_grade : pyval).

(** The module-level state of a run.  The loop at the end of the script is
    module code, so [score] is a global: unbound ([None]) until a branch
    assigns it, and kept from one repository to the next.  The other
    names of the loop are assigned before each use. *)
Record globals : Type := {
  score : option pyval;
  trace : list event
}.

Definition initial_globals : globals := {| score := None; trace := [] |}.

(** Statements: they read and write the globals and return or raise. *)
Definition M (A : Type) : Type := globals -> outcome A * globals.

Definition ret {A : Type} (a : A) : M A := fun g => (Ok a, g).

Definition bind {A B : Type} (m : M A) (k : A -> M B) : M B :=
  fun g =>
    match m g with
    | (Ok a, g') => k a g'
    | (Raise e, g') => (Raise e, g')
    end.

Definition lift {A : Type} (o : outcome A) : M A := fun g => (o, g).

Definition emit (e : event) : M unit :=
  fun g => (Ok tt, {| score := score g; trace := trace g ++ [e] |}).

Definition print (m : message) : M unit := emit (Printed m).

Definition assign_score (v : pyval) : M unit :=
  fun g => (Ok tt, {| score := Some v; trace := trace g |}).

(** Reading the name [score]: [NameError] while it is unbound. *)
Definition read_score : M pyval :=
  fun g =>
    match score g with
    | Some v => (Ok v, g)
    | None => (Raise NameError, g)
    end.

(** [try: body except: pass]. *)
Definition try_except_pass (body : M unit) : M unit :=
  fun g =>
    match body g with
    | (Ok _, g') => (Ok tt, g')
    | (Raise _, g') => (Ok tt, g')
    end.

Notation "x <~ m ;; k" := (bind m (fun x => k))
  (at level 61, m at next level, right associativity) : py_scope.
Notation "m ;;; k" := (bind m (fun _ => k))
  (at level 61, right associativity) : py_scope.

(** The third-party clients and builtins the script calls.  Nothing is
    assumed about what they answer. *)
Record Collaborators : Type := {
  document : Type;
  datetime : Type;
  gspread_client : Type;
  worksheet : Type;
  canvas_assignment : Type;
  canvas_submission : Type;
  (* builtins and the standard library *)
  open_read : string -> outcome string;
  json_loads : string -> outcome document;
  json_dumps : document -> string;
  float_of_str : string -> outcome float;
  os_path_isfile : string -> bool;
  (* dateutil: the flag says whether [tzinfos] is passed *)
  dateutil_parse : string -> bool -> outcome datetime;
  relativedelta_of : datetime -> datetime -> outcome relativedelta;
  (* pandas and gspread *)
  pd_read_csv : string -> outcome (list identity_record);
  service_account_from_dict : document -> outcome gspread_client;
  open_sheet1 : gspread_client -> string -> outcome worksheet;
  get_all_records : worksheet -> outcome (list identity_record);
  (* ghapi *)
  list_for_org : string -> outcome (list (list string));
  list_workflow_runs_for_repo : string -> outcome workflow_runs_page;
  (* canvasapi *)
  get_assignments : outcome (list assignment_entry);
  get_assignment : option Z -> outcome canvas_assignment;
  get_user : loc_value -> string -> outcome Z;
  get_submission : canvas_assignment -> Z -> outcome canvas_submission;
  submission_edit : canvas_submission -> pyval -> outcome unit
}.

(* ================================================================== *)
(** * The script *)
(* ================================================================== *)

(** [strip_github_username], line 236:
    ['-'.join(repo.split('-')[1:]).lower()]. *)
Definition strip_github_username (repo : string) : string :=
  lower (join "-" (tl (split "-" repo))).

Section Script.

Variable C : Collaborators.

Open Scope py_scope.

(** [google_creditial_encoder], lines 46-65. *)
Definition google_creditial_encoder (json_file : string) : outcome string :=
  text <- open_read C json_file ;;
  d <- json_loads C text ;;
  let minified_json := json_dumps C d in
  ascii_bytes <- str_encode_ascii minified_json ;;
  let base64_bytes := b64encode ascii_bytes in
  bytes_decode_ascii base64_bytes.

(** [google_creditial_decoder], lines 67-81. *)
Definition google_creditial_decoder (base64_byte_string : string)
  : outcome (document C) :=
  base64_str <- b64decode base64_byte_string ;;
  text <- bytes_decode_ascii base64_str ;;
  json_loads C text.

(** Both loaders lowercase the two columns and index by the user name. *)
Definition lowered_and_indexed (records : list identity_record) : dataframe :=
  map (fun r => (lower (col_Github_Username r), lower (col_EID r))) records.

(** [username_map_from_google_sheet], lines 83-108.  A frame built from no
    record has no column, so [df['Github Username']] at line 105 raises
    [KeyError] for a sheet without data rows. *)
Definition username_map_from_google_sheet (creditials classname : string)
  : outcome dataframe :=
  creds <- google_creditial_decoder creditials ;;
  gc <- service_account_from_dict C creds ;;
  sh1 <- open_sheet1 C gc (classname ++ " Github Names") ;;
  records <- get_all_records C sh1 ;;
  match records with
  | [] => Raise KeyError
  | _ :: _ => Ok (lowered_and_indexed records)
  end.

(** [filter_repos], lines 110-134. *)
Definition filter_repos (org filter_string : string) : outcome (list string) :=
  pages <- list_for_org C org ;;
  Ok (filter (contains filter_string) (List.concat pages)).

(** The [for] loop of [get_latest_workflow_run]: the first run whose name
    contains the file name; falling off the loop returns [None]. *)
Fixpoint first_matching_run (workflow_filename : string)
  (runs : list workflow_run) : option workflow_run :=
  match runs with
  | [] => None
  | workflow_run :: rest =>
      if contains workflow_filename (run_name workflow_run)
      then Some workflow_run
      else first_matching_run workflow_filename rest
  end.

(** [get_latest_workflow_run], lines 136-163. *)
Definition get_latest_workflow_run (repo workflow_filename : string)
  : outcome (option workflow_run) :=
  runs <- list_workflow_runs_for_repo C repo ;;
  if total_count runs =? 0 then Ok None
  else Ok (first_matching_run workflow_filename (workflow_runs runs)).

(** [get_latest_workflow_conclusion], lines 166-191. *)
Definition get_latest_workflow_conclusion (repo workflow_filename : string)
  : outcome (option string) :=
  run <- get_latest_workflow_run repo workflow_filename ;;
  match run with
  | None => Ok None
  | Some run => Ok (run_conclusion run)
  end.

(** [get_latest_workflow_commit_time_and_conclusion], lines 194-218. *)
Definition get_latest_workflow_commit_time_and_conclusion
  (repo workflow_filename : string) : outcome (option string * option string) :=
  run <- get_latest_workflow_run repo workflow_filename ;;
  match run with
  | None => Ok (None, None)
  | Some run => Ok (Some (run_head_commit_timestamp run), run_conclusion run)
  end.

(** [read_username_map], lines 291-322.  Only [ValueError] (and its
    subclasses) is caught around the sheet; the function then falls off its
    end and returns [None], as the last branch does. *)
Definition read_username_map (creditials classname : option string)
  : M (option dataframe) :=
  if os_path_isfile C "username_map.csv" then
    records <~ lift (pd_read_csv C "username_map.csv") ;;
    ret (Some (lowered_and_indexed records))
  else
    match creditials, classname with
    | Some creditials, Some classname =>
        match username_map_from_google_sheet creditials classname with
        | Ok df => ret (Some df)
        | Raise e =>
            if is_ValueError e
            then print MsgErrorReadingSheet ;;; ret None
            else lift (Raise e)
        end
    | _, _ => print MsgNoUsernameMap ;;; ret None
    end.

(** The default [comparison_operator]: [lambda a,b: a <= b]. *)
Definition default_comparison_operator (a b : Z) : bool := a <=? b.

(** [dateutil.parser.parse(commit_time)]: [commit_time] is [None] exactly
    when the reader found no run, and parsing [None] is a [TypeError]. *)
Definition parse_commit_time (commit_time : option string)
  : outcome (datetime C) :=
  match commit_time with
  | Some timestr => dateutil_parse C timestr false
  | None => Raise TypeError
  end.

(** [score_multiplier], lines 324-349. *)
Definition score_multiplier (args : cli_args) (commit_time : option string)
  (comparison_operator : Z -> Z -> bool) : outcome float :=
  if arg_due args then
    commit_time <- parse_commit_time commit_time ;;
    let date_time_string :=
      arg_DATE args ++ " " ++ arg_TIME args ++ " " ++ arg_TIME_ZONE args in
    due_time <- dateutil_parse C date_time_string true ;;
    rel_time <- relativedelta_of C commit_time due_time ;;
    if comparison_operator (hours rel_time) 0 &&
       comparison_operator (minutes rel_time) 0 &&
       comparison_operator (seconds rel_time) 0
    then float_of_str C (arg_MULTIPLIER args)
    else Ok 1%float
  else Ok 1%float.

(** [get_assignment_id], lines 351-376. *)
Definition get_assignment_id (assignment_name : string) : M (option Z) :=
  assignments <~ lift (get_assignments C) ;;
  match find (fun a => String.eqb (entry_name a) assignment_name) assignments with
  | Some assignment => ret (Some (entry_id assignment))
  | None => print (MsgNoAssignmentId assignment_name) ;;; ret None
  end.

(** [username_map.loc[github_username, "EID"]]; [read_username_map] may
    have returned [None], which has no [loc]. *)
Definition lookup_eid (username_map : option dataframe)
  (github_username : string) : outcome loc_value :=
  match username_map with
  | Some df => loc df github_username
  | None => Raise AttributeError
  end.

Definition verbose : bool := true.

(** The body of the [try] statement, lines 433-442. *)
Definition submit_grade (username_map : option dataframe)
  (assignment : canvas_assignment C) (github_username conclusion : string)
  (multiplier : float) : M unit :=
  eid <~ lift (lookup_eid username_map github_username) ;;
  canvas_id <~ lift (get_user C eid "sis_login_id") ;;
  submission <~ lift (get_submission C assignment canvas_id) ;;
  (if String.eqb conclusion "success" then
     assign_score (PyFloat (1 * multiplier)%float)
   else if String.eqb conclusion "failure" then
     assign_score (PyInt 0)
   else ret tt) ;;;
  posted_grade <~ read_score ;;
  emit (EditCalled canvas_id posted_grade) ;;;
  lift (submission_edit C submission posted_grade) ;;;
  if verbose then print (MsgUpdatedGrade canvas_id posted_grade) else ret tt.

(** One turn of the grading loop, lines 417-446. *)
Definition grade_repo (args : cli_args) (username_map : option dataframe)
  (repo : string) : M unit :=
  outcome_pair <~
    lift (get_latest_workflow_commit_time_and_conclusion repo "main.yml") ;;
  let '(commit_time, conclusion) := outcome_pair in
  match conclusion with
  | Some conclusion =>
      let github_username := strip_github_username repo in
      multiplier <~
        lift (score_multiplier args commit_time default_comparison_operator) ;;
      assignment_id <~ get_assignment_id (arg_assignment_name args) ;;
      assignment <~ lift (get_assignment C assignment_id) ;;
      try_except_pass
        (submit_grade username_map assignment github_username conclusion
           multiplier)
  | None => print (MsgNoWorkflowRuns repo)
  end.

(** The grading loop: [for repo in repos]. *)
Fixpoint grade_repos (args : cli_args) (username_map : option dataframe)
  (repos : list string) : M unit :=
  match repos with
  | [] => ret tt
  | repo :: rest =>
      grade_repo args username_map repo ;;;
      grade_repos args username_map rest
  end.

Fixpoint print_repos (repos : list string) : M unit :=
  match repos with
  | [] => ret tt
  | repo :: rest => print (MsgRepo repo) ;;; print_repos rest
  end.

(** The grading mode of the main block, lines 408-446, from the loading of
    the identity table on; [client_secret] is
    [os.environ['GOOGLE_CLIENT_SECRET']]. *)
Definition grading_run (args : cli_args) (client_secret org : string) : M unit :=
  username_map <~ read_username_map (Some client_secret) (Some org) ;;
  repos <~ lift (filter_repos org (arg_assignment_name args)) ;;
  print (MsgGrading (arg_assignment_name args)) ;;;
  print MsgFoundRepos ;;;
  print_repos repos ;;;
  grade_repos args username_map repos.

End Script.

(* ================================================================== *)
(** * Test doubles *)
(* ================================================================== *)

(** A small course, used to run the script on concrete inputs: organisation
    "cs101", assignment "hw1", due 2024-01-15 23:59:00 CST.  Datetimes are
    POSIX seconds, and a credential document is a flat object of strings. *)
Module Demo.

Definition doc : Type := list (string * string).

Definition secret_doc : doc :=
  [("type", "service_account"); ("project_id", "cs101")].

Definition dq : string := String (ascii_of_nat 34) EmptyString.
Definition quoted (s : string) : string := dq ++ s ++ dq.

(** [json.dumps(d, separators=(',', ':'))] for such a document (no
    character of the demo needs an escape). *)
Definition dumps (d : doc) : string :=
  "{" ++ join "," (map (fun kv => quoted (fst kv) ++ ":" ++ quoted (snd kv)) d)
      ++ "}".

(** The credential file as it sits on disk. *)
Definition secret_file_text : string :=
  "{ " ++ quoted "type" ++ ": " ++ quoted "service_account" ++ ", "
       ++ quoted "project_id" ++ ": " ++ quoted "cs101" ++ " }".

(** [json.loads] knows the file and its minified form. *)
Definition loads (text : string) : outcome doc :=
  if String.eqb text secret_file_text || String.eqb text (dumps secret_doc)
  then Ok secret_doc
  else Raise JSONDecodeError.

Definition read_file (path : string) : outcome string :=
  if String.eqb path "client_secret.json" then Ok secret_file_text
  else Raise FileNotFoundError.

(** The token [google_creditial_encoder] prints for the file above. *)
Definition secret_token : string :=
  "eyJ0eXBlIjoic2VydmljZV9hY2NvdW50IiwicHJvamVjdF9pZCI6ImNzMTAxIn0=".

Definition to_float (s : string) : outcome float :=
  if String.eqb s "0.5" then Ok 0.5%float
  else if String.eqb s "1.0" then Ok 1%float
  else Raise ValueError.

Definition due_posix : Z := 1705384740.

(** Timestamps the parser knows ([-06:00] is CST). *)
Definition parse (timestr : string) (tzinfos : bool) : outcome Z :=
  if String.eqb timestr "2024-01-15 23:59:00 CST" then Ok due_posix
  else if String.eqb timestr "2024-01-15T23:59:00-06:00" then Ok due_posix
  else if String.eqb timestr "2024-01-15T22:00:00-06:00" then Ok 1705377600
  else if String.eqb timestr "2024-01-16T00:05:00-06:00" then Ok 1705385100
  else if String.eqb timestr "2024-01-18T23:59:00-06:00" then Ok 1705643940
  else Raise ValueError.

(** The relative difference of two instants less than a month apart: the
    seconds are carried into minutes, hours and days, every field with the
    sign of the difference. *)
Definition delta (dt1 dt2 : Z) : outcome relativedelta :=
  let d := dt1 - dt2 in
  Ok {| years := 0; months := 0;
        days := Z.quot d 86400;
        hours := Z.rem (Z.quot d 3600) 24;
        minutes := Z.rem (Z.quot d 60) 60;
        seconds := Z.rem d 60 |}.

(** The identity sheet, as typed by the students. *)
Definition sheet_records : list identity_record :=
  [ {| col_Github_Username := "Alice"; col_EID := "AA111" |};
    {| col_Github_Username := "bob"; col_EID := "bb222" |};
    {| col_Github_Username := "Carol"; col_EID := "CC333" |} ].

Definition run (id : Z) (name timestamp : string) (conclusion : option string)
  : workflow_run :=
  {| run_id := id; run_name := name;
     run_head_commit_timestamp := timestamp; run_conclusion := conclusion |}.

(** Runs per repository, newest first. *)
Definition runs_of (repo : string) : outcome workflow_runs_page :=
  if String.eqb repo "hw1-alice" then
    Ok {| total_count := 2;
          workflow_runs :=
            [ run 12 "docs" "2024-01-15T23:59:00-06:00" (Some "failure");
              run 11 ".github/workflows/main.yml" "2024-01-15T22:00:00-06:00"
                (Some "success") ] |}
  else if String.eqb repo "hw1-bob" then
    Ok {| total_count := 1;
          workflow_runs :=
            [ run 21 ".github/workflows/main.yml" "2024-01-15T22:00:00-06:00"
                (Some "cancelled") ] |}
  else if String.eqb repo "hw1-carol" then
    Ok {| total_count := 1;
          workflow_runs :=
            [ run 61 ".github/workflows/main.yml" "2024-01-16T00:05:00-06:00"
                (Some "failure") ] |}
  else if String.eqb repo "hw1-johndoe" then
    Ok {| total_count := 1;
          workflow_runs :=
            [ run 31 ".github/workflows/main.yml" "2024-01-15T22:00:00-06:00"
                (Some "failure") ] |}
  else if String.eqb repo "hw1-late" then
    Ok {| total_count := 1;
          workflow_runs :=
            [ run 41 ".github/workflows/main.yml" "2024-01-16T00:05:00-06:00"
                (Some "success") ] |}
  else if String.eqb repo "hw1-docsonly" then
    Ok {| total_count := 1;
          workflow_runs :=
            [ run 51 "docs" "2024-01-15T22:00:00-06:00" (Some "success") ] |}
  else Ok {| total_count := 0; workflow_runs := [] |}.

Definition user_of (eid : loc_value) (id_type : string) : outcome Z :=
  match eid with
  | Scalar v =>
      if String.eqb v "aa111" then Ok 501
      else if String.eqb v "bb222" then Ok 502
      else if String.eqb v "cc333" then Ok 503
      else Raise CanvasException
  | Series _ => Raise CanvasException
  end.

Definition assignment_of (id : option Z) : outcome Z :=
  match id with
  | Some i => Ok i
  | None => Raise CanvasException
  end.

(** The collaborators, with the answer of the spreadsheet service left
    open. *)
Definition collaborators (sheet : outcome unit) : Collaborators :=
  {| document := doc;
     datetime := Z;
     gspread_client := unit;
     worksheet := unit;
     canvas_assignment := Z;
     canvas_submission := Z * Z;
     open_read := read_file;
     json_loads := loads;
     json_dumps := dumps;
     float_of_str := to_float;
     os_path_isfile := fun _ => false;
     dateutil_parse := parse;
     relativedelta_of := delta;
     pd_read_csv := fun _ => Raise FileNotFoundError;
     service_account_from_dict := fun _ => Ok tt;
     open_sheet1 := fun _ _ => sheet;
     get_all_records := fun _ => Ok sheet_records;
     list_for_org := fun _ =>
       Ok [["hw0-alice"; "hw1-alice"; "hw1-bob"]; ["hw1-carol"; "hw1-johndoe"]];
     list_workflow_runs_for_repo := runs_of;
     get_assignments :=
       Ok [ {| entry_name := "hw0"; entry_id := 10 |};
            {| entry_name := "hw1"; entry_id := 11 |} ];
     get_assignment := assignment_of;
     get_user := user_of;
     get_submission := fun a u => Ok (a, u);
     submission_edit := fun _ _ => Ok tt |}.

(** The service answers. *)
Definition online : Collaborators := collaborators (Ok tt).

(** The service account may not open the sheet. *)
Definition denied : Collaborators := collaborators (Raise APIError).

(** [grader.py hw1] and [grader.py hw1 --due 2024-01-15 23:59:00 CST 0.5]. *)
Definition args_plain : cli_args :=
  {| arg_assignment_name := "hw1"; arg_due := false;
     arg_DATE := EmptyString; arg_TIME := EmptyString;
     arg_TIME_ZONE := EmptyString; arg_MULTIPLIER := EmptyString |}.

Definition args_due : cli_args :=
  {| arg_assignment_name := "hw1"; arg_due := true;
     arg_DATE := "2024-01-15"; arg_TIME := "23:59:00"; arg_TIME_ZONE := "CST";
     arg_MULTIPLIER := "0.5" |}.

Definition identity_map : option dataframe :=
  Some (lowered_and_indexed sheet_records).

End Demo.

(* ================================================================== *)
(** * Vocabulary of the statements *)
(* ================================================================== *)

(** A byte of the ascii range. *)
Definition is_ascii_byte (b : Z) : Prop := 0 <= b < 128.

(** All bytes, to check a fact on each of them by evaluation. *)
Definition byte_range : list Z := map Z.of_nat (seq 0 256).

(** A 6-bit group. *)
Definition is_sextet (s : Z) : bool := (0 <=? s) && (s <? 64).

(** The alphabet character of a 6-bit group is no pad and decodes to it. *)
Definition sextet_ok (s : Z) : bool :=
  negb (b2a s =? BASE64_PAD) &&
  match a2b (b2a s) with
  | Some s' => s' =? s
  | None => false
  end.

(** What the decoder needs of the groups cut from the bytes [a] and [b]. *)
Definition pair_ok (a b : Z) : bool :=
  is_sextet (sextet1 a) && is_sextet (sextet2 a b) &&
  is_sextet (sextet3 a b) && is_sextet (sextet4 a) &&
  (Z.lor (Z.shiftl (sextet1 a) 2) (Z.shiftr (sextet2 a b) 4) =? a) &&
  (Z.land (sextet2 a b) 15 =? Z.shiftr b 4) &&
  (Z.lor (Z.shiftl (Z.shiftr a 4) 4) (Z.shiftr (sextet3 a b) 2) =? a) &&
  (Z.land (sextet3 a b) 3 =? Z.shiftr b 6) &&
  (Z.lor (Z.shiftl (Z.shiftr a 6) 6) (sextet4 a) =? a).

(** The text holds ascii characters only, as [json.dumps] writes with its
    default [ensure_ascii=True]. *)
Fixpoint is_ascii (s : string) : bool :=
  match s with
  | EmptyString => true
  | String c s' => (ord c <? 128) && is_ascii s'
  end.

(** [needle] occurs in [hay]. *)
Definition is_substring (needle hay : string) : Prop :=
  exists before after, hay = before ++ needle ++ after.

(** The string [score_multiplier] hands to the parser as the due time. *)
Definition due_string (args : cli_args) : string :=
  arg_DATE args ++ " " ++ arg_TIME args ++ " " ++ arg_TIME_ZONE args.

(** The value of [score] after the [if]/[elif] of the loop body: assigned
    on "success" and on "failure", left as it was on any other
    conclusion. *)
Definition score_after (conclusion : string) (multiplier : float)
  (before : option pyval) : option pyval :=
  if String.eqb conclusion "success" then Some (PyFloat (1 * multiplier)%float)
  else if String.eqb conclusion "failure" then Some (PyInt 0)
  else before.

(** [course.get_assignments()] searched for the assignment name. *)
Definition assignment_lookup (entries : list assignment_entry)
  (assignment_name : string) : option Z :=
  option_map entry_id
    (find (fun a => String.eqb (entry_name a) assignment_name) entries).

(** The globals after [get_assignment_id]: a line is printed when the name
    is not found. *)
Definition after_assignment_lookup (entries : list assignment_entry)
  (assignment_name : string) (g : globals) : globals :=
  match assignment_lookup entries assignment_name with
  | Some _ => g
  | None =>
      {| score := score g;
         trace := trace g ++ [Printed (MsgNoAssignmentId assignment_name)] |}
  end.

(** The turn from [g] to [g'] appends to the trace, and every [edit] it
    calls carries [grade]. *)
Definition posts_only (g g' : globals) (grade : pyval) : Prop :=
  exists evs,
    trace g' = (trace g ++ evs)%list /\
    forall canvas_id v, In (EditCalled canvas_id v) evs -> v = grade.

(** The gradebook resolves the owner of [repo] to the user [canvas_id] and
    hands out the submission. *)
Definition gradebook_answers (C : Collaborators) (args : cli_args)
  (username_map : option dataframe) (repo : string) (canvas_id : Z) : Prop :=
  exists entries assignment eid submission,
    get_assignments C = Ok entries /\
    get_assignment C (assignment_lookup entries (arg_assignment_name args)) =
      Ok assignment /\
    lookup_eid username_map (strip_github_username repo) = Ok eid /\
    get_user C eid "sis_login_id" = Ok canvas_id /\
    get_submission C assignment canvas_id = Ok submission.

(* ================================================================== *)
(** * The rerun mode *)
(* ================================================================== *)

(** A call of [api.actions.re_run_workflow(repo=repo, run_id=run_id)] and
    whether the API accepted it. *)
Record rerun_call : Type := {
  rerun_repo : string;
  rerun_run_id : Z;
  rerun_accepted : bool
}.

Section RerunMode.

Variable C : Collaborators.

(** [api.actions.re_run_workflow]. *)
Variable re_run_workflow : string -> Z -> outcome unit.

Open Scope py_scope.

(** [rerun_latest_workflow], lines 238-262.  The function returns [None];
    the model returns the calls of [re_run_workflow] it made beside the
    outcome.  Subscripting the [None] of a repository without a matching
    run is a [TypeError], raised before the [try]. *)
Definition rerun_latest_workflow (repo workflow_filename : string)
  : list rerun_call * outcome unit :=
  match
    (run <- get_latest_workflow_run C repo workflow_filename ;;
     match run with
     | Some run => Ok (run_id run)
     | None => Raise TypeError
     end)
  with
  | Raise e => ([], Raise e)
  | Ok run_id =>
      match re_run_workflow repo run_id with
      | Ok _ =>
          ([ {| rerun_repo := repo; rerun_run_id := run_id;
                rerun_accepted := true |} ], Ok tt)
      | Raise _ =>
          ([ {| rerun_repo := repo; rerun_run_id := run_id;
                rerun_accepted := false |} ], Ok tt)
      end
  end.

(** The [for] loop of [rerun_all_worflows_for_assignment]. *)
Fixpoint rerun_each (repos : list string) (workflow_filename : string)
  : list rerun_call * outcome unit :=
  match repos with
  | [] => ([], Ok tt)
  | repo :: rest =>
      match rerun_latest_workflow repo workflow_filename with
      | (calls, Ok _) =>
          let '(calls', o) := rerun_each rest workflow_filename in
          ((calls ++ calls')%list, o)
      | (calls, Raise e) => (calls, Raise e)
      end
  end.

(** [rerun_all_worflows_for_assignment], lines 264-288; the global
    [gh_api] the body lists the repositories with is the [api] of its
    only call site. *)
Definition rerun_all_worflows_for_assignment
  (org assignment_name workflow_filename : string)
  : list rerun_call * outcome unit :=
  match filter_repos C org assignment_name with
  | Ok repos => rerun_each repos workflow_filename
  | Raise e => ([], Raise e)
  end.

End RerunMode.

(** The rerun API of the test doubles: run 21 cannot be rerun. *)
Definition demo_re_run_workflow (repo : string) (run_id : Z) : outcome unit :=
  if run_id =? 21 then Raise (OtherException "HTTP403ForbiddenError")
  else Ok tt.

(** [grader.py hw1 --due someday 23:59:00 CST 0.5]: a date the parser
    refuses. *)
Definition demo_args_bad_due : cli_args :=
  {| arg_assignment_name := "hw1"; arg_due := true;
     arg_DATE := "someday"; arg_TIME := "23:59:00"; arg_TIME_ZONE := "CST";
     arg_MULTIPLIER := "0.5" |}.

(** The test doubles with a sheet that has its header row only. *)
Definition demo_empty_sheet : Collaborators :=
  {| document := Demo.doc;
     datetime := Z;
     gspread_client := unit;
     worksheet := unit;
     canvas_assignment := Z;
     canvas_submission := Z * Z;
     open_read := Demo.read_file;
     json_loads := Demo.loads;
     json_dumps := Demo.dumps;
     float_of_str := Demo.to_float;
     os_path_isfile := fun _ => false;
     dateutil_parse := Demo.parse;
     relativedelta_of := Demo.delta;
     pd_read_csv := fun _ => Raise FileNotFoundError;
     service_account_from_dict := fun _ => Ok tt;
     open_sheet1 := fun _ _ => Ok tt;
     get_all_records := fun _ => Ok [];
     list_for_org := list_for_org Demo.online;
     list_workflow_runs_for_repo := Demo.runs_of;
     get_assignments := get_assignments Demo.online;
     get_assignment := Demo.assignment_of;
     get_user := Demo.user_of;
     get_submission := fun a u => Ok (a, u);
     submission_edit := fun _ _ => Ok tt |}.

(** A sheet in which one student signed up twice, in two spellings. *)
Definition demo_repeated_records : list identity_record :=
  [ {| col_Github_Username := "Alice"; col_EID := "AA111" |};
    {| col_Github_Username := "ALICE"; col_EID := "zz999" |} ].

(** ** More vocabulary *)

(** The event is a call of [submission.edit]. *)
Definition is_edit (e : event) : bool :=
  match e with
  | EditCalled _ _ => true
  | Printed _ => false
  end.

(** The text a token stands for, before [json.loads] reads it:
    [base64.b64decode(token).decode('ascii')]. *)
Definition token_text (token : string) : outcome string :=
  obind (b64decode token) bytes_decode_ascii.

(** A character of the base64 alphabet, or the pad. *)
Definition is_base64_char (c : ascii) : bool :=
  existsb (Z.eqb (ord c)) table_b2a_base64 || (ord c =? BASE64_PAD).

(** An ascii character the base64 decoder skips. *)
Definition is_skipped_char (c : ascii) : bool :=
  (ord c <? 128) && negb (is_base64_char c).

(** A byte of the alphabet, or the pad. *)
Definition is_base64_byte (b : Z) : Prop :=
  In b table_b2a_base64 \/ b = BASE64_PAD.

(** A byte the decoding loop does not skip. *)
Definition is_decoded_byte (ch : Z) : bool :=
  (ch =? BASE64_PAD) ||
  match a2b ch with
  | Some _ => true
  | None => false
  end.

Fixpoint string_forallb (p : ascii -> bool) (s : string) : bool :=
  match s with
  | EmptyString => true
  | String c s' => p c && string_forallb p s'
  end.

(** What the events [seg] of the turn of [repo] satisfy: at most one call
    of [edit]; a call of [edit] is for the gradebook user the owner-handle
    of [repo] resolves to; and a line reporting a grade update is the last
    event of the turn and comes directly after the call of [edit] for the
    same user and grade. *)
Definition turn_segment (C : Collaborators) (username_map : option dataframe)
  (repo : string) (seg : list event) : Prop :=
  (List.length (filter is_edit seg) <= 1)%nat /\
  (forall canvas_id v,
      In (EditCalled canvas_id v) seg ->
      exists eid,
        lookup_eid username_map (strip_github_username repo) = Ok eid /\
        get_user C eid "sis_login_id" = Ok canvas_id) /\
  (forall before canvas_id v after,
      seg = (before ++ Printed (MsgUpdatedGrade canvas_id v) :: after)%list ->
      after = [] /\
      exists before', before = (before' ++ [EditCalled canvas_id v])%list).

(** The no-runs lines of a list of repositories. *)
Definition no_runs_lines (repos : list string) : list event :=
  map (fun repo => Printed (MsgNoWorkflowRuns repo)) repos.

(* ================================================================== *)
(** * Lemmas *)
(* ================================================================== *)

Lemma split_not_nil (sep : ascii) (s : string) : split sep s <> [].
Proof.
  induction s as [|c s IH]; simpl; [discriminate|].
  destruct (Ascii.eqb c sep); [discriminate|].
  destruct (split sep s); [contradiction|discriminate].
Qed.

Lemma split_no_sep (sep : ascii) (s : string) :
  occurs sep s = false -> split sep s = [s].
Proof.
  induction s as [|c s IH]; simpl; intros H; [reflexivity|].
  apply orb_false_iff in H as [Hc Hs].
  rewrite Hc, (IH Hs). reflexivity.
Qed.

Lemma split_app_sep (sep : ascii) (tok rest : string) :
  occurs sep tok = false ->
  split sep (tok ++ String sep rest) = tok :: split sep rest.
Proof.
  induction tok as [|c tok IH]; simpl; intros H.
  - rewrite Ascii.eqb_refl. reflexivity.
  - apply orb_false_iff in H as [Hc Hs].
    rewrite Hc, (IH Hs). reflexivity.
Qed.

Lemma join_cons_char (sep : string) (c : ascii) (p : string) (ps : list string) :
  join sep (String c p :: ps) = String c (join sep (p :: ps)).
Proof. destruct ps; reflexivity. Qed.

Lemma join_cons_empty (sep : string) (ps : list string) :
  ps <> [] -> join sep (EmptyString :: ps) = sep ++ join sep ps.
Proof. destruct ps; [contradiction|reflexivity]. Qed.

Lemma join_split (sep : ascii) (s : string) :
  join (String sep EmptyString) (split sep s) = s.
Proof.
  induction s as [|c s IH]; [reflexivity|].
  pose proof (split_not_nil sep s) as Hn.
  cbn [split]. destruct (Ascii.eqb c sep) eqn:E.
  - apply Ascii.eqb_eq in E. subst c.
    rewrite (join_cons_empty _ _ Hn), IH. reflexivity.
  - destruct (split sep s) as [|p ps]; [contradiction|].
    rewrite join_cons_char, IH. reflexivity.
Qed.

(** C7: [strip_github_username] drops exactly the first hyphen-delimited
    token of the repository name (the whole name when it holds no hyphen)
    and lowercases what follows the first hyphen, later hyphens included;
    "hw1-janedoe" gives "janedoe" and "hw1-jane-doe" gives "jane-doe". *)
Theorem strip_github_username_first_token :
  (forall tok rest : string,
      occurs "-" tok = false ->
      strip_github_username (tok ++ "-" ++ rest) = lower rest) /\
  (forall repo : string,
      occurs "-" repo = false -> strip_github_username repo = EmptyString) /\
  strip_github_username "hw1-janedoe" = "janedoe" /\
  strip_github_username "hw1-jane-doe" = "jane-doe" /\
  strip_github_username "HW1-Jane-Doe" = "jane-doe".
Proof.
  repeat split; try reflexivity.
  - intros tok rest H. unfold strip_github_username.
    change ("-" ++ rest) with (String "-" rest).
    rewrite (split_app_sep _ _ _ H). cbn [tl].
    now rewrite join_split.
  - intros repo H. unfold strip_github_username.
    now rewrite (split_no_sep _ _ H).
Qed.

Lemma strip_github_username_first_token_witness :
  occurs "-" "hw1" = false /\
  strip_github_username ("hw1" ++ "-" ++ "Jane-Doe") = lower "Jane-Doe" /\
  occurs "-" "janedoe" = false /\
  strip_github_username "janedoe" = EmptyString.
Proof.
  destruct strip_github_username_first_token as [Htok [Hnone _]].
  split; [reflexivity|]. split; [apply Htok; reflexivity|].
  split; [reflexivity|]. apply Hnone; reflexivity.
Defined.

(** ** The ascii codec *)

Lemma ord_range (c : ascii) : is_byte (ord c).
Proof.
  unfold is_byte, ord. pose proof (N_ascii_bounded c) as H. lia.
Qed.

Lemma chr_ord (c : ascii) : chr (ord c) = c.
Proof. unfold chr, ord. rewrite N2Z.id. apply ascii_N_embedding. Qed.

Lemma ord_chr (b : Z) : is_byte b -> ord (chr b) = b.
Proof.
  intros [H0 H1]. unfold chr, ord.
  rewrite N_ascii_embedding by lia. apply Z2N.id, H0.
Qed.

Lemma str_encode_ascii_decode (s : string) (bs : list Z) :
  str_encode_ascii s = Ok bs ->
  Forall is_ascii_byte bs /\ bytes_decode_ascii bs = Ok s.
Proof.
  revert bs. induction s as [|c s IH]; intros bs H; cbn in H.
  - injection H as <-. split; [constructor|reflexivity].
  - destruct (ord c <? 128) eqn:E; [|discriminate].
    destruct (str_encode_ascii s) as [bs'|]; [|discriminate].
    injection H as <-. destruct (IH bs' eq_refl) as [Hall Hdec].
    apply Z.ltb_lt in E. pose proof (ord_range c) as [Hc _].
    split; [constructor; [split; assumption|assumption]|].
    cbn [bytes_decode_ascii].
    rewrite (proj2 (Z.leb_le _ _) Hc), (proj2 (Z.ltb_lt _ _) E). cbn.
    rewrite Hdec. cbn. now rewrite chr_ord.
Qed.

Lemma bytes_decode_ascii_encode (bs : list Z) :
  Forall is_ascii_byte bs ->
  exists s, bytes_decode_ascii bs = Ok s /\ str_encode_ascii s = Ok bs.
Proof.
  induction 1 as [|b bs [H0 H1] Hall [s [Hdec Henc]]].
  - exists EmptyString. split; reflexivity.
  - exists (String (chr b) s). cbn [bytes_decode_ascii str_encode_ascii].
    rewrite (proj2 (Z.leb_le _ _) H0), (proj2 (Z.ltb_lt _ _) H1). cbn.
    rewrite Hdec, ord_chr by (unfold is_byte; lia).
    rewrite (proj2 (Z.ltb_lt _ _) H1), Henc. split; reflexivity.
Qed.

Lemma is_ascii_byte_is_byte (bs : list Z) :
  Forall is_ascii_byte bs -> Forall is_byte bs.
Proof.
  apply Forall_impl. unfold is_ascii_byte, is_byte. lia.
Qed.

(** ** base64: decoding undoes encoding

    The facts about the 6-bit groups of one or two bytes are checked on all
    bytes by evaluation. *)

Lemma in_byte_range (b : Z) : is_byte b -> In b byte_range.
Proof.
  intros H. unfold byte_range. rewrite <- (Z2Nat.id b) by apply H.
  apply in_map, in_seq. unfold is_byte in H. lia.
Qed.

Lemma forall_byte (P : Z -> bool) :
  forallb P byte_range = true -> forall b, is_byte b -> P b = true.
Proof.
  intros H b Hb. rewrite forallb_forall in H. apply H, in_byte_range, Hb.
Qed.

Lemma forall_byte2 (P : Z -> Z -> bool) :
  forallb (fun a => forallb (P a) byte_range) byte_range = true ->
  forall a b, is_byte a -> is_byte b -> P a b = true.
Proof.
  intros H a b Ha Hb.
  apply (forall_byte (P a)); [|exact Hb].
  apply (forall_byte (fun a => forallb (P a) byte_range) H a Ha).
Qed.

Lemma pair_ok_all (a b : Z) : is_byte a -> is_byte b -> pair_ok a b = true.
Proof. revert a b. apply forall_byte2. vm_compute. reflexivity. Qed.

Lemma sextet_table_checked :
  forallb (fun s => implb (is_sextet s) (sextet_ok s)) byte_range = true.
Proof. vm_compute. reflexivity. Qed.

Lemma sextet_ok_all (s : Z) : is_sextet s = true -> sextet_ok s = true.
Proof.
  intros Hs.
  assert (Hb : is_byte s).
  { unfold is_sextet in Hs. apply andb_true_iff in Hs as [H0 H1].
    apply Z.leb_le in H0. apply Z.ltb_lt in H1. unfold is_byte. lia. }
  pose proof (forall_byte _ sextet_table_checked s Hb) as H.
  cbv beta in H. rewrite Hs in H. exact H.
Qed.

Lemma a2b_b2a (s : Z) : is_sextet s = true -> a2b (b2a s) = Some s.
Proof.
  intros Hs. apply sextet_ok_all in Hs. unfold sextet_ok in Hs.
  apply andb_true_iff in Hs as [_ H].
  destruct (a2b (b2a s)) as [s'|]; [|discriminate].
  apply Z.eqb_eq in H. now subst.
Qed.

Lemma b2a_not_pad (s : Z) : is_sextet s = true -> (b2a s =? BASE64_PAD) = false.
Proof.
  intros Hs. apply sextet_ok_all in Hs. unfold sextet_ok in Hs.
  apply andb_true_iff in Hs as [H _]. now apply negb_true_iff in H.
Qed.

Lemma b2a_ascii (s : Z) : is_ascii_byte (b2a s).
Proof.
  unfold b2a.
  assert (H : Forall is_ascii_byte table_b2a_base64).
  { apply Forall_forall. intros x Hx.
    assert (E : forallb (fun x => (0 <=? x) && (x <? 128)) table_b2a_base64 = true)
      by (vm_compute; reflexivity).
    rewrite forallb_forall in E. apply E in Hx.
    apply andb_true_iff in Hx as [H0 H1].
    apply Z.leb_le in H0. apply Z.ltb_lt in H1. split; assumption. }
  rewrite Forall_forall in H.
  destruct (nth_in_or_default (Z.to_nat s) table_b2a_base64 0) as [Hin | ->].
  - apply H, Hin.
  - unfold is_ascii_byte. lia.
Qed.

(** One turn of the decoding loop on an alphabet character. *)
Lemma a2b_base64_loop_char (s quad_pos leftchar pads : Z) (rest : list Z) :
  is_sextet s = true ->
  a2b_base64_loop quad_pos leftchar pads (b2a s :: rest) =
    if quad_pos =? 0 then a2b_base64_loop 1 s 0 rest
    else if quad_pos =? 1 then
      omap (cons (Z.lor (Z.shiftl leftchar 2) (Z.shiftr s 4)))
           (a2b_base64_loop 2 (Z.land s 15) 0 rest)
    else if quad_pos =? 2 then
      omap (cons (Z.lor (Z.shiftl leftchar 4) (Z.shiftr s 2)))
           (a2b_base64_loop 3 (Z.land s 3) 0 rest)
    else
      omap (cons (Z.lor (Z.shiftl leftchar 6) s))
           (a2b_base64_loop 0 0 0 rest).
Proof.
  intros Hs. cbn [a2b_base64_loop].
  rewrite (b2a_not_pad _ Hs), (a2b_b2a _ Hs). reflexivity.
Qed.

Ltac pair_facts a b :=
  let H := fresh "P" in
  pose proof (pair_ok_all a b ltac:(assumption) ltac:(assumption)) as H;
  unfold pair_ok in H;
  do 8 (apply andb_true_iff in H; destruct H as [H ?]);
  repeat match goal with E : (_ =? _) = true |- _ => apply Z.eqb_eq in E end.

Ltac rewrite_facts :=
  repeat match goal with E : _ = _ |- _ => rewrite E end.

Lemma omap_omap {A B D : Type} (f : A -> B) (g : B -> D) (m : outcome A) :
  omap g (omap f m) = omap (fun x => g (f x)) m.
Proof. destruct m; reflexivity. Qed.

Lemma a2b_base64_loop_quad (a b c : Z) (rest : list Z) :
  is_byte a -> is_byte b -> is_byte c ->
  a2b_base64_loop 0 0 0
    (b2a (sextet1 a) :: b2a (sextet2 a b) :: b2a (sextet3 b c)
       :: b2a (sextet4 c) :: rest) =
  omap (fun l => a :: b :: c :: l) (a2b_base64_loop 0 0 0 rest).
Proof.
  intros Ha Hb Hc. pair_facts a b. pair_facts b c. pair_facts c c.
  rewrite !a2b_base64_loop_char by assumption.
  cbn [Z.eqb Pos.eqb]. rewrite !omap_omap. rewrite_facts. reflexivity.
Qed.

Lemma a2b_base64_loop_pad2 (leftchar : Z) :
  a2b_base64_loop 2 leftchar 0 [BASE64_PAD; BASE64_PAD] = Ok [].
Proof. reflexivity. Qed.

Lemma a2b_base64_loop_pad3 (leftchar : Z) :
  a2b_base64_loop 3 leftchar 0 [BASE64_PAD] = Ok [].
Proof. reflexivity. Qed.

Lemma sextet2_0 (a : Z) : sextet2 a 0 = Z.shiftl (Z.land a 3) 4.
Proof. unfold sextet2. rewrite Z.shiftr_0_l. apply Z.lor_0_r. Qed.

Lemma sextet3_0 (b : Z) : sextet3 b 0 = Z.shiftl (Z.land b 15) 2.
Proof. unfold sextet3. rewrite Z.shiftr_0_l. apply Z.lor_0_r. Qed.

Lemma is_byte_0 : is_byte 0.
Proof. unfold is_byte. lia. Qed.

Lemma a2b_base64_loop_tail1 (a : Z) :
  is_byte a -> a2b_base64_loop 0 0 0 (b64encode [a]) = Ok [a].
Proof.
  intros Ha. pose proof is_byte_0 as H0. pair_facts a 0.
  cbn [b64encode]. rewrite <- sextet2_0.
  rewrite !a2b_base64_loop_char by assumption.
  cbn [Z.eqb Pos.eqb]. rewrite a2b_base64_loop_pad2. cbn [omap].
  rewrite_facts. reflexivity.
Qed.

Lemma a2b_base64_loop_tail2 (a b : Z) :
  is_byte a -> is_byte b -> a2b_base64_loop 0 0 0 (b64encode [a; b]) = Ok [a; b].
Proof.
  intros Ha Hb. pose proof is_byte_0 as H0. pair_facts a b. pair_facts b 0.
  cbn [b64encode]. rewrite <- sextet3_0.
  rewrite !a2b_base64_loop_char by assumption.
  cbn [Z.eqb Pos.eqb]. rewrite a2b_base64_loop_pad3. cbn [omap].
  rewrite_facts. reflexivity.
Qed.

Lemma b64encode_cons3 (a b c : Z) (rest : list Z) :
  b64encode (a :: b :: c :: rest) =
  b2a (sextet1 a) :: b2a (sextet2 a b) :: b2a (sextet3 b c)
    :: b2a (sextet4 c) :: b64encode rest.
Proof. reflexivity. Qed.

(** Induction three bytes at a time. *)
Lemma list_ind3 {A : Type} (P : list A -> Prop) :
  P [] -> (forall a, P [a]) -> (forall a b, P [a; b]) ->
  (forall a b c rest, P rest -> P (a :: b :: c :: rest)) ->
  forall l, P l.
Proof.
  intros H0 H1 H2 H3.
  enough (H : forall l, P l /\ (forall a, P (a :: l)) /\ (forall a b, P (a :: b :: l)))
    by (intros l; apply H).
  induction l as [|c l [IH0 [IH1 IH2]]].
  - repeat split; auto.
  - split; [apply IH1|]. split; [intros a; apply IH2|].
    intros a b. apply H3, IH0.
Qed.

Lemma a2b_b64encode (bin : list Z) :
  Forall is_byte bin -> a2b_base64_loop 0 0 0 (b64encode bin) = Ok bin.
Proof.
  induction bin as [|a|a b|a b c rest IH] using list_ind3; intros H.
  - reflexivity.
  - inversion H; subst. now apply a2b_base64_loop_tail1.
  - inversion H as [|? ? Ha Hb']; subst. inversion Hb'; subst.
    now apply a2b_base64_loop_tail2.
  - inversion H as [|? ? Ha Hbc]; subst. inversion Hbc as [|? ? Hb Hc']; subst.
    inversion Hc' as [|? ? Hc Hrest]; subst.
    rewrite b64encode_cons3, a2b_base64_loop_quad by assumption.
    rewrite (IH Hrest). reflexivity.
Qed.

Lemma b64encode_ascii (bin : list Z) : Forall is_ascii_byte (b64encode bin).
Proof.
  assert (Hpad : is_ascii_byte BASE64_PAD) by (unfold is_ascii_byte, BASE64_PAD; lia).
  induction bin as [|a|a b|a b c rest IH] using list_ind3; cbn [b64encode];
    repeat (apply Forall_cons; [first [apply b2a_ascii | exact Hpad]|]);
    first [exact IH | constructor].
Qed.

(** [base64.b64decode(base64.b64encode(b).decode('ascii')) == b]. *)
Lemma b64decode_b64encode (bin : list Z) :
  Forall is_byte bin ->
  exists token, bytes_decode_ascii (b64encode bin) = Ok token /\
                b64decode token = Ok bin.
Proof.
  intros H.
  destruct (bytes_decode_ascii_encode _ (b64encode_ascii bin)) as [token [Hd He]].
  exists token. split; [exact Hd|].
  unfold b64decode. rewrite He. now apply a2b_b64encode.
Qed.

(** ** The credential codec *)

Lemma is_ascii_encode (s : string) :
  is_ascii s = true -> exists bs, str_encode_ascii s = Ok bs.
Proof.
  induction s as [|c s IH]; cbn; intros H.
  - now exists [].
  - apply andb_true_iff in H as [Hc Hs]. rewrite Hc.
    destruct (IH Hs) as [bs ->]. now exists (ord c :: bs).
Qed.

Section Codec.

Variable C : Collaborators.

(** C3: a credential document [d] read from the file, which [json.dumps]
    writes in ascii and [json.loads] reads back, survives the codec:
    [google_creditial_encoder] returns a token and
    [google_creditial_decoder] of that token returns [d]. *)
Theorem credential_codec_round_trip (json_file text : string) (d : document C) :
  open_read C json_file = Ok text ->
  json_loads C text = Ok d ->
  is_ascii (json_dumps C d) = true ->
  json_loads C (json_dumps C d) = Ok d ->
  exists token,
    google_creditial_encoder C json_file = Ok token /\
    google_creditial_decoder C token = Ok d.
Proof.
  intros Hopen Hload Hascii Hjson.
  destruct (is_ascii_encode _ Hascii) as [bs Hbs].
  destruct (str_encode_ascii_decode _ _ Hbs) as [Hall Hback].
  destruct (b64decode_b64encode bs (is_ascii_byte_is_byte _ Hall))
    as [token [Htok Hdec]].
  exists token. split.
  - unfold google_creditial_encoder. rewrite Hopen. cbn [obind].
    rewrite Hload. cbn [obind]. rewrite Hbs. cbn [obind]. exact Htok.
  - unfold google_creditial_decoder. rewrite Hdec. cbn [obind].
    rewrite Hback. cbn [obind]. exact Hjson.
Qed.

End Codec.

Lemma credential_codec_round_trip_witness :
  exists token,
    google_creditial_encoder Demo.online "client_secret.json" = Ok token /\
    google_creditial_decoder Demo.online token = Ok Demo.secret_doc.
Proof.
  apply (credential_codec_round_trip Demo.online "client_secret.json"
           Demo.secret_file_text Demo.secret_doc); reflexivity.
Defined.

(** ** Substrings *)

Lemma prefix_spec (needle hay : string) :
  String.prefix needle hay = true <-> exists after, hay = needle ++ after.
Proof.
  revert hay. induction needle as [|c needle IH]; intros hay.
  - split; [intros _; now exists hay|destruct hay; reflexivity].
  - destruct hay as [|d hay]; cbn.
    + split; [discriminate|intros [after H]; discriminate].
    + destruct (ascii_dec c d) as [->|Hcd].
      * rewrite IH. split; intros [after H]; exists after.
        -- now rewrite H.
        -- now injection H.
      * split; [discriminate|]. intros [after H]. injection H as H _.
        now elim Hcd.
Qed.

Lemma contains_unfold (needle hay : string) :
  contains needle hay =
  if String.prefix needle hay then true
  else match hay with
       | EmptyString => false
       | String _ hay' => contains needle hay'
       end.
Proof. destruct hay; reflexivity. Qed.

Lemma contains_spec (needle hay : string) :
  contains needle hay = true <-> is_substring needle hay.
Proof.
  unfold is_substring. split.
  - induction hay as [|c hay IH]; rewrite contains_unfold;
      destruct (String.prefix needle _) eqn:E.
    + intros _. apply prefix_spec in E as [after ->]. now exists EmptyString, after.
    + discriminate.
    + intros _. apply prefix_spec in E as [after ->]. now exists EmptyString, after.
    + intros H. destruct (IH H) as [before [after ->]].
      now exists (String c before), after.
  - intros [before [after ->]]. induction before as [|c before IH].
    + rewrite contains_unfold.
      assert (E : String.prefix needle (needle ++ after) = true)
        by (apply prefix_spec; now exists after).
      cbn [append]. now rewrite E.
    + rewrite contains_unfold. cbn [append].
      destruct (String.prefix needle _); [reflexivity|exact IH].
Qed.

Lemma contains_false (needle hay : string) :
  contains needle hay = false <-> ~ is_substring needle hay.
Proof.
  rewrite <- contains_spec. destruct (contains needle hay); split; intros H;
    try discriminate; try reflexivity; try (intros E; discriminate).
  now elim H.
Qed.

(** ** The workflow result reader *)

Section Reader.

Variable C : Collaborators.

Lemma first_matching_run_none (wf : string) (runs : list workflow_run) :
  Forall (fun r => ~ is_substring wf (run_name r)) runs ->
  first_matching_run wf runs = None.
Proof.
  induction 1 as [|r runs Hr _ IH]; [reflexivity|].
  cbn. apply contains_false in Hr. now rewrite Hr.
Qed.

Lemma first_matching_run_first (wf : string) (before after : list workflow_run)
  (r : workflow_run) :
  Forall (fun r => ~ is_substring wf (run_name r)) before ->
  is_substring wf (run_name r) ->
  first_matching_run wf (before ++ r :: after)%list = Some r.
Proof.
  intros Hbefore Hr. induction Hbefore as [|x before Hx _ IH]; cbn.
  - apply contains_spec in Hr. now rewrite Hr.
  - apply contains_false in Hx. now rewrite Hx.
Qed.

(** A repository whose outcome carries no conclusion is skipped: the turn
    prints the no-runs line, calls no gradebook method and leaves [score]
    alone. *)
Lemma grade_repo_absent (args : cli_args) (username_map : option dataframe)
  (repo : string) (commit_time : option string) (g : globals) :
  get_latest_workflow_commit_time_and_conclusion C repo "main.yml" =
    Ok (commit_time, None) ->
  grade_repo C args username_map repo g =
    (Ok tt, {| score := score g;
               trace := trace g ++ [Printed (MsgNoWorkflowRuns repo)] |}).
Proof.
  intros H. unfold grade_repo, bind, lift. rewrite H. reflexivity.
Qed.

(** C4: with zero runs, or with no run whose name contains the workflow
    file name, the reader returns [(None, None)]; otherwise it returns the
    head-commit timestamp and the conclusion, as they are, of the first run
    in the order of the answer whose name contains the file name.  A
    repository whose outcome has no conclusion is skipped by the grading
    loop: it prints the no-runs line and posts nothing. *)
Theorem workflow_result_reading (repo wf : string) (page : workflow_runs_page) :
  list_workflow_runs_for_repo C repo = Ok page ->
  (total_count page = 0 \/
   Forall (fun r => ~ is_substring wf (run_name r)) (workflow_runs page) ->
   get_latest_workflow_commit_time_and_conclusion C repo wf = Ok (None, None)) /\
  (forall (before after : list workflow_run) (r : workflow_run),
      total_count page <> 0 ->
      workflow_runs page = (before ++ r :: after)%list ->
      Forall (fun r => ~ is_substring wf (run_name r)) before ->
      is_substring wf (run_name r) ->
      get_latest_workflow_commit_time_and_conclusion C repo wf =
        Ok (Some (run_head_commit_timestamp r), run_conclusion r)) /\
  (forall (args : cli_args) (username_map : option dataframe) (g : globals)
          (commit_time : option string),
      get_latest_workflow_commit_time_and_conclusion C repo "main.yml" =
        Ok (commit_time, None) ->
      grade_repo C args username_map repo g =
        (Ok tt, {| score := score g;
                   trace := trace g ++ [Printed (MsgNoWorkflowRuns repo)] |})).
Proof.
  intros Hpage. split; [|split].
  - intros Habsent.
    unfold get_latest_workflow_commit_time_and_conclusion,
      get_latest_workflow_run.
    rewrite Hpage. cbn [obind].
    destruct (total_count page =? 0) eqn:E; [reflexivity|].
    destruct Habsent as [H0|Hnone].
    + apply Z.eqb_neq in E. contradiction.
    + now rewrite (first_matching_run_none _ _ Hnone).
  - intros before after r Hcount Hruns Hbefore Hr.
    unfold get_latest_workflow_commit_time_and_conclusion,
      get_latest_workflow_run.
    rewrite Hpage. cbn [obind].
    apply Z.eqb_neq in Hcount. rewrite Hcount, Hruns.
    now rewrite (first_matching_run_first _ _ _ _ Hbefore Hr).
  - intros args username_map g commit_time. apply grade_repo_absent.
Qed.

End Reader.

Lemma workflow_result_reading_witness :
  get_latest_workflow_commit_time_and_conclusion Demo.online "hw1-docsonly"
    "main.yml" = Ok (None, None) /\
  get_latest_workflow_commit_time_and_conclusion Demo.online "hw1-alice"
    "main.yml" = Ok (Some "2024-01-15T22:00:00-06:00", Some "success") /\
  grade_repo Demo.online Demo.args_plain Demo.identity_map "hw1-docsonly"
    initial_globals =
    (Ok tt, {| score := None;
               trace := [Printed (MsgNoWorkflowRuns "hw1-docsonly")] |}).
Proof.
  assert (Hdocs : ~ is_substring "main.yml" "docs")
    by (apply contains_false; reflexivity).
  destruct (workflow_result_reading Demo.online "hw1-docsonly" "main.yml" _ eq_refl)
    as [Habsent [_ Hskip]].
  destruct (workflow_result_reading Demo.online "hw1-alice" "main.yml" _ eq_refl)
    as [_ [Hfirst _]].
  split; [|split].
  - apply Habsent. right. repeat constructor. exact Hdocs.
  - apply (Hfirst
             [Demo.run 12 "docs" "2024-01-15T23:59:00-06:00" (Some "failure")] []
             (Demo.run 11 ".github/workflows/main.yml"
                "2024-01-15T22:00:00-06:00" (Some "success"))).
    + cbn. discriminate.
    + reflexivity.
    + repeat constructor. exact Hdocs.
    + apply contains_spec. reflexivity.
  - apply (Hskip Demo.args_plain Demo.identity_map initial_globals None).
    reflexivity.
Defined.

(** ** The multiplier *)

Section Multiplier.

Variable C : Collaborators.

(** With [--due] and both timestamps parsed, the result is decided by the
    hour, minute and second fields of the relative difference alone. *)
Lemma score_multiplier_due (args : cli_args) (commit_time : string)
  (cmp : Z -> Z -> bool) (commit due : datetime C) (rel_time : relativedelta) :
  arg_due args = true ->
  dateutil_parse C commit_time false = Ok commit ->
  dateutil_parse C (due_string args) true = Ok due ->
  relativedelta_of C commit due = Ok rel_time ->
  score_multiplier C args (Some commit_time) cmp =
    if cmp (hours rel_time) 0 && cmp (minutes rel_time) 0 &&
       cmp (seconds rel_time) 0
    then float_of_str C (arg_MULTIPLIER args)
    else Ok 1%float.
Proof.
  intros Hdue Hcommit Hduetime Hrel. unfold score_multiplier, parse_commit_time.
  fold (due_string args).
  rewrite Hdue, Hcommit. cbn [obind]. rewrite Hduetime. cbn [obind].
  rewrite Hrel. reflexivity.
Qed.

Lemma score_multiplier_no_due (args : cli_args) (commit_time : option string)
  (cmp : Z -> Z -> bool) :
  arg_due args = false -> score_multiplier C args commit_time cmp = Ok 1%float.
Proof. intros H. unfold score_multiplier. now rewrite H. Qed.

(** C1, amended to the direction the code takes: with a due-date
    configuration, when the hour, minute and second fields of the relative
    difference (commit - due) are all [<= 0], [score_multiplier] returns
    the configured multiplier ([float] of the [<MULTIPLIER>] argument); when
    one of the three is positive it returns 1.0. *)
Theorem score_multiplier_direction (args : cli_args) (commit_time : string)
  (commit due : datetime C) (rel_time : relativedelta) :
  arg_due args = true ->
  dateutil_parse C commit_time false = Ok commit ->
  dateutil_parse C (due_string args) true = Ok due ->
  relativedelta_of C commit due = Ok rel_time ->
  (hours rel_time <= 0 /\ minutes rel_time <= 0 /\ seconds rel_time <= 0 ->
   score_multiplier C args (Some commit_time) default_comparison_operator =
     float_of_str C (arg_MULTIPLIER args)) /\
  (0 < hours rel_time \/ 0 < minutes rel_time \/ 0 < seconds rel_time ->
   score_multiplier C args (Some commit_time) default_comparison_operator =
     Ok 1%float).
Proof.
  intros Hdue Hcommit Hduetime Hrel.
  rewrite (score_multiplier_due _ _ _ _ _ _ Hdue Hcommit Hduetime Hrel).
  unfold default_comparison_operator. split.
  - intros [Hh [Hm Hs]].
    now rewrite (proj2 (Z.leb_le _ _) Hh), (proj2 (Z.leb_le _ _) Hm),
      (proj2 (Z.leb_le _ _) Hs).
  - intros Hlate.
    destruct (hours rel_time <=? 0) eqn:Eh; [|reflexivity].
    destruct (minutes rel_time <=? 0) eqn:Em; [|reflexivity].
    destruct (seconds rel_time <=? 0) eqn:Es; [|reflexivity].
    apply Z.leb_le in Eh, Em, Es. lia.
Qed.

(** C9: a commit whose relative difference to the due time has zero hour,
    minute and second fields and a positive day field passes the three
    comparisons [a <= 0], and [score_multiplier] returns for it what it
    returns for an on-time commit, namely the configured multiplier; any
    two commits whose differences agree on the hour, minute and second
    fields get the same result, whatever the day fields are. *)
Theorem lateness_blind_to_whole_days (args : cli_args)
  (late_time on_time : string) (late on due : datetime C)
  (rel_late rel_on : relativedelta) :
  arg_due args = true ->
  dateutil_parse C (due_string args) true = Ok due ->
  dateutil_parse C late_time false = Ok late ->
  relativedelta_of C late due = Ok rel_late ->
  dateutil_parse C on_time false = Ok on ->
  relativedelta_of C on due = Ok rel_on ->
  0 < days rel_late ->
  hours rel_late = 0 -> minutes rel_late = 0 -> seconds rel_late = 0 ->
  hours rel_on <= 0 -> minutes rel_on <= 0 -> seconds rel_on <= 0 ->
  (default_comparison_operator (hours rel_late) 0 &&
   default_comparison_operator (minutes rel_late) 0 &&
   default_comparison_operator (seconds rel_late) 0 = true) /\
  score_multiplier C args (Some late_time) default_comparison_operator =
    score_multiplier C args (Some on_time) default_comparison_operator /\
  score_multiplier C args (Some late_time) default_comparison_operator =
    float_of_str C (arg_MULTIPLIER args) /\
  (forall (other_time : string) (other : datetime C) (rel_other : relativedelta),
      dateutil_parse C other_time false = Ok other ->
      relativedelta_of C other due = Ok rel_other ->
      hours rel_other = hours rel_late ->
      minutes rel_other = minutes rel_late ->
      seconds rel_other = seconds rel_late ->
      score_multiplier C args (Some other_time) default_comparison_operator =
        score_multiplier C args (Some late_time) default_comparison_operator).
Proof.
  intros Hdue Hduetime Hlate Hrel_late Hon Hrel_on Hdays Hh Hm Hs Hoh Hom Hos.
  rewrite (score_multiplier_due _ _ _ _ _ _ Hdue Hlate Hduetime Hrel_late).
  rewrite (score_multiplier_due _ _ _ _ _ _ Hdue Hon Hduetime Hrel_on).
  unfold default_comparison_operator.
  rewrite Hh, Hm, Hs.
  rewrite (proj2 (Z.leb_le _ _) Hoh), (proj2 (Z.leb_le _ _) Hom),
    (proj2 (Z.leb_le _ _) Hos).
  cbn. repeat split.
  intros other_time other rel_other Hother Hrel_other Eh Em Es.
  rewrite (score_multiplier_due _ _ _ _ _ _ Hdue Hother Hduetime Hrel_other).
  now rewrite Eh, Em, Es.
Qed.

End Multiplier.

(** In the test double, a commit a whole number of days after the due time
    has a difference with zero hour, minute and second fields. *)
Lemma demo_delta_whole_days (due k : Z) :
  Demo.delta (due + k * 86400) due =
    Ok {| years := 0; months := 0; days := k;
          hours := 0; minutes := 0; seconds := 0 |}.
Proof.
  unfold Demo.delta. replace (due + k * 86400 - due) with (k * 86400) by lia.
  rewrite Z.quot_mul by lia.
  replace (k * 86400) with (k * 24 * 3600) at 1 by lia.
  rewrite Z.quot_mul by lia. rewrite Z.rem_mul by lia.
  replace (k * 86400) with (k * 1440 * 60) by lia.
  rewrite Z.quot_mul by lia. rewrite Z.rem_mul by lia.
  replace (k * 1440) with (k * 24 * 60) by lia.
  rewrite Z.rem_mul by lia. reflexivity.
Qed.

Lemma float_half_neq_one : 0.5%float <> 1%float.
Proof.
  intros H. apply (f_equal (fun x => PrimFloat.eqb x 1)) in H.
  vm_compute in H. discriminate.
Qed.

(** C1 as written fails: with due 2024-01-15 23:59:00 CST and multiplier
    0.5, a commit at 22:00 the same day (difference -1 h -59 min 0 s, all
    three fields [<= 0]) gets 0.5 and not 1.0, and a commit at 00:05 the next
    day (difference +6 min) gets 1.0 and not 0.5. *)
Lemma score_multiplier_direction_counterexample :
  relativedelta_of Demo.online 1705377600 Demo.due_posix =
    Ok {| years := 0; months := 0; days := 0;
          hours := -1; minutes := -59; seconds := 0 |} /\
  score_multiplier Demo.online Demo.args_due (Some "2024-01-15T22:00:00-06:00")
    default_comparison_operator = Ok 0.5%float /\
  relativedelta_of Demo.online 1705385100 Demo.due_posix =
    Ok {| years := 0; months := 0; days := 0;
          hours := 0; minutes := 6; seconds := 0 |} /\
  score_multiplier Demo.online Demo.args_due (Some "2024-01-16T00:05:00-06:00")
    default_comparison_operator = Ok 1%float /\
  float_of_str Demo.online (arg_MULTIPLIER Demo.args_due) = Ok 0.5%float /\
  0.5%float <> 1%float.
Proof.
  repeat split; try reflexivity. exact float_half_neq_one.
Qed.

Lemma score_multiplier_direction_witness :
  score_multiplier Demo.online Demo.args_due (Some "2024-01-15T22:00:00-06:00")
    default_comparison_operator = Ok 0.5%float /\
  score_multiplier Demo.online Demo.args_due (Some "2024-01-16T00:05:00-06:00")
    default_comparison_operator = Ok 1%float.
Proof.
  destruct (score_multiplier_direction Demo.online Demo.args_due
              "2024-01-15T22:00:00-06:00" 1705377600 Demo.due_posix _
              eq_refl eq_refl eq_refl eq_refl) as [Hon _].
  destruct (score_multiplier_direction Demo.online Demo.args_due
              "2024-01-16T00:05:00-06:00" 1705385100 Demo.due_posix _
              eq_refl eq_refl eq_refl eq_refl) as [_ Hlate].
  split.
  - apply Hon. cbn. lia.
  - apply Hlate. cbn. lia.
Defined.

Lemma lateness_blind_to_whole_days_witness :
  relativedelta_of Demo.online 1705643940 Demo.due_posix =
    Ok {| years := 0; months := 0; days := 3;
          hours := 0; minutes := 0; seconds := 0 |} /\
  score_multiplier Demo.online Demo.args_due (Some "2024-01-18T23:59:00-06:00")
    default_comparison_operator =
  score_multiplier Demo.online Demo.args_due (Some "2024-01-15T22:00:00-06:00")
    default_comparison_operator /\
  score_multiplier Demo.online Demo.args_due (Some "2024-01-18T23:59:00-06:00")
    default_comparison_operator = Ok 0.5%float.
Proof.
  split; [reflexivity|].
  destruct (lateness_blind_to_whole_days Demo.online Demo.args_due
              "2024-01-18T23:59:00-06:00" "2024-01-15T22:00:00-06:00"
              1705643940 1705377600 Demo.due_posix _ _
              eq_refl eq_refl eq_refl eq_refl eq_refl eq_refl)
    as [_ [Hsame [Hmult _]]]; cbn; try lia; try reflexivity.
  split; [exact Hsame|exact Hmult].
Defined.

(** ** The grading loop *)

Lemma globals_eta (g : globals) : {| score := score g; trace := trace g |} = g.
Proof. now destruct g. Qed.

Lemma try_except_pass_returns (body : M unit) (g : globals) :
  fst (try_except_pass body g) = Ok tt.
Proof. unfold try_except_pass. destruct (body g) as [[u|e] g']; reflexivity. Qed.

Lemma try_except_pass_globals (body : M unit) (g : globals) :
  snd (try_except_pass body g) = snd (body g).
Proof. unfold try_except_pass. destruct (body g) as [[u|e] g']; reflexivity. Qed.

Section Loop.

Variable C : Collaborators.

Lemma get_assignment_id_run (entries : list assignment_entry)
  (assignment_name : string) (g : globals) :
  get_assignments C = Ok entries ->
  get_assignment_id C assignment_name g =
    (Ok (assignment_lookup entries assignment_name),
     after_assignment_lookup entries assignment_name g).
Proof.
  intros H.
  unfold get_assignment_id, after_assignment_lookup, assignment_lookup, bind, lift.
  rewrite H.
  destruct (find _ entries); reflexivity.
Qed.

(** The [try] body stops at the first of the three lookups that raises, with
    the globals untouched. *)
Lemma submit_grade_lookup_raises (username_map : option dataframe)
  (assignment : canvas_assignment C) (github_username conclusion : string)
  (multiplier : float) (g : globals) (e : exn) :
  lookup_eid username_map github_username = Raise e \/
  (exists eid, lookup_eid username_map github_username = Ok eid /\
               get_user C eid "sis_login_id" = Raise e) \/
  (exists eid canvas_id,
      lookup_eid username_map github_username = Ok eid /\
      get_user C eid "sis_login_id" = Ok canvas_id /\
      get_submission C assignment canvas_id = Raise e) ->
  submit_grade C username_map assignment github_username conclusion multiplier g
    = (Raise e, g).
Proof.
  unfold submit_grade, bind, lift.
  intros [H|[[eid [H1 H2]]|[eid [canvas_id [H1 [H2 H3]]]]]].
  - now rewrite H.
  - now rewrite H1, H2.
  - now rewrite H1, H2, H3.
Qed.

(** Once the three lookups have answered, the [try] body assigns [score]
    as the conclusion says, reads it, and calls [edit] with it. *)
Lemma submit_grade_reached (username_map : option dataframe)
  (assignment : canvas_assignment C) (github_username conclusion : string)
  (multiplier : float) (g : globals) (eid : loc_value) (canvas_id : Z)
  (submission : canvas_submission C) :
  lookup_eid username_map github_username = Ok eid ->
  get_user C eid "sis_login_id" = Ok canvas_id ->
  get_submission C assignment canvas_id = Ok submission ->
  submit_grade C username_map assignment github_username conclusion multiplier g
    = match score_after conclusion multiplier (score g) with
      | None => (Raise NameError, g)
      | Some v =>
          match submission_edit C submission v with
          | Ok _ =>
              (Ok tt,
               {| score := Some v;
                  trace := trace g ++ [EditCalled canvas_id v;
                                       Printed (MsgUpdatedGrade canvas_id v)] |})
          | Raise e =>
              (Raise e,
               {| score := Some v;
                  trace := trace g ++ [EditCalled canvas_id v] |})
          end
      end.
Proof.
  intros H1 H2 H3.
  unfold submit_grade, score_after, bind, lift, print, emit, assign_score,
    read_score, ret, verbose.
  rewrite H1, H2, H3.
  destruct (String.eqb conclusion "success");
    [|destruct (String.eqb conclusion "failure")]; cbn.
  - destruct (submission_edit C submission _) as [[]|e]; cbn;
      rewrite <- ?app_assoc; reflexivity.
  - destruct (submission_edit C submission _) as [[]|e]; cbn;
      rewrite <- ?app_assoc; reflexivity.
  - destruct g as [[v|] tr]; cbn; [|reflexivity].
    destruct (submission_edit C submission _) as [[]|e]; cbn;
      rewrite <- ?app_assoc; reflexivity.
Qed.

(** Whatever the collaborators answer, the [try] body only appends to the
    trace, and an [edit] it calls carries [score_after]. *)
Lemma submit_grade_trace (username_map : option dataframe)
  (assignment : canvas_assignment C) (github_username conclusion : string)
  (multiplier : float) (g : globals) :
  exists evs,
    trace (snd (submit_grade C username_map assignment github_username
                  conclusion multiplier g)) = (trace g ++ evs)%list /\
    forall canvas_id v,
      In (EditCalled canvas_id v) evs ->
      score_after conclusion multiplier (score g) = Some v.
Proof.
  destruct (lookup_eid username_map github_username) as [eid|e] eqn:H1.
  2:{ rewrite (submit_grade_lookup_raises _ _ _ _ _ _ e) by auto.
      exists []. cbn. rewrite app_nil_r. split; [reflexivity|contradiction]. }
  destruct (get_user C eid "sis_login_id") as [canvas_id|e] eqn:H2.
  2:{ rewrite (submit_grade_lookup_raises _ _ _ _ _ _ e) by eauto.
      exists []. cbn. rewrite app_nil_r. split; [reflexivity|contradiction]. }
  destruct (get_submission C assignment canvas_id) as [submission|e] eqn:H3.
  2:{ rewrite (submit_grade_lookup_raises _ _ _ _ _ _ e) by eauto 7.
      exists []. cbn. rewrite app_nil_r. split; [reflexivity|contradiction]. }
  rewrite (submit_grade_reached _ _ _ _ _ _ _ _ _ H1 H2 H3).
  destruct (score_after conclusion multiplier (score g)) as [v|].
  2:{ exists []. cbn. rewrite app_nil_r. split; [reflexivity|contradiction]. }
  destruct (submission_edit C submission v) as [[]|e]; cbn.
  - eexists. split; [reflexivity|]. cbn. intros id w [H|[H|[]]]; congruence.
  - eexists. split; [reflexivity|]. cbn. intros id w [H|[]]; congruence.
Qed.

End Loop.

Section Turn.

Variable C : Collaborators.
Variable args : cli_args.
Variable username_map : option dataframe.

Lemma after_assignment_lookup_score (entries : list assignment_entry)
  (name : string) (g : globals) :
  score (after_assignment_lookup entries name g) = score g.
Proof.
  unfold after_assignment_lookup. destruct (assignment_lookup entries name);
    reflexivity.
Qed.

Lemma after_assignment_lookup_trace (entries : list assignment_entry)
  (name : string) (g : globals) :
  exists evs,
    trace (after_assignment_lookup entries name g) = (trace g ++ evs)%list /\
    forall canvas_id v, ~ In (EditCalled canvas_id v) evs.
Proof.
  unfold after_assignment_lookup. destruct (assignment_lookup entries name).
  - exists []. rewrite app_nil_r. split; [reflexivity|intros ? ? []].
  - eexists. split; [reflexivity|]. intros ? ? [H|[]]. discriminate.
Qed.

(** With a conclusion at hand, a multiplier and an assignment object, the
    turn is the [try] statement. *)
Lemma grade_repo_reaches_try (repo : string) (g : globals)
  (commit_time : option string) (conclusion : string) (multiplier : float)
  (entries : list assignment_entry) (assignment : canvas_assignment C) :
  get_latest_workflow_commit_time_and_conclusion C repo "main.yml" =
    Ok (commit_time, Some conclusion) ->
  score_multiplier C args commit_time default_comparison_operator =
    Ok multiplier ->
  get_assignments C = Ok entries ->
  get_assignment C (assignment_lookup entries (arg_assignment_name args)) =
    Ok assignment ->
  grade_repo C args username_map repo g =
    try_except_pass
      (submit_grade C username_map assignment (strip_github_username repo)
         conclusion multiplier)
      (after_assignment_lookup entries (arg_assignment_name args) g).
Proof.
  intros Hread Hmult Hentries Hassignment.
  unfold grade_repo, bind at 1 2 3, lift at 1 2.
  rewrite Hread, Hmult.
  unfold bind at 1. rewrite (get_assignment_id_run C _ _ _ Hentries).
  unfold bind, lift. rewrite Hassignment. reflexivity.
Qed.

(** A turn only appends to the trace, and an [edit] it calls carries the
    value [score_after] gives for the conclusion and the multiplier of the
    repository. *)
Lemma grade_repo_trace (repo : string) (g : globals) :
  exists evs,
    trace (snd (grade_repo C args username_map repo g)) = (trace g ++ evs)%list /\
    forall canvas_id v,
      In (EditCalled canvas_id v) evs ->
      exists commit_time conclusion multiplier,
        get_latest_workflow_commit_time_and_conclusion C repo "main.yml" =
          Ok (commit_time, Some conclusion) /\
        score_multiplier C args commit_time default_comparison_operator =
          Ok multiplier /\
        score_after conclusion multiplier (score g) = Some v.
Proof.
  assert (Hnone : forall g0 : globals,
             trace g0 = trace g ->
             exists evs, trace g0 = (trace g ++ evs)%list /\
               forall canvas_id v,
                 In (EditCalled canvas_id v) evs ->
                 exists commit_time conclusion multiplier,
                   get_latest_workflow_commit_time_and_conclusion C repo "main.yml" =
                     Ok (commit_time, Some conclusion) /\
                   score_multiplier C args commit_time default_comparison_operator =
                     Ok multiplier /\
                   score_after conclusion multiplier (score g) = Some v).
  { intros g0 E. exists []. rewrite app_nil_r. split; [exact E|intros ? ? []]. }
  destruct (get_latest_workflow_commit_time_and_conclusion C repo "main.yml")
    as [[commit_time [conclusion|]]|e] eqn:Hread.
  - destruct (score_multiplier C args commit_time default_comparison_operator)
      as [multiplier|e] eqn:Hmult.
    + destruct (get_assignments C) as [entries|e] eqn:Hentries.
      * destruct (get_assignment C
                    (assignment_lookup entries (arg_assignment_name args)))
          as [assignment|e] eqn:Hassignment.
        -- rewrite (grade_repo_reaches_try _ _ _ _ _ _ _ Hread Hmult Hentries
                      Hassignment).
           rewrite try_except_pass_globals.
           destruct (after_assignment_lookup_trace entries
                       (arg_assignment_name args) g) as [evs0 [E0 Hno]].
           destruct (submit_grade_trace C username_map assignment
                       (strip_github_username repo) conclusion multiplier
                       (after_assignment_lookup entries
                          (arg_assignment_name args) g)) as [evs1 [E1 Hedit]].
           exists (evs0 ++ evs1)%list. split.
           ++ rewrite E1, E0. now rewrite app_assoc.
           ++ intros canvas_id v Hin. apply in_app_or in Hin as [Hin|Hin].
              ** now apply Hno in Hin.
              ** apply Hedit in Hin. rewrite after_assignment_lookup_score in Hin.
                 now exists commit_time, conclusion, multiplier.
        -- unfold grade_repo, bind at 1 2 3, lift at 1 2.
           rewrite Hread, Hmult.
           unfold bind at 1. rewrite (get_assignment_id_run C _ _ _ Hentries).
           unfold bind, lift. rewrite Hassignment. cbn [snd].
           destruct (after_assignment_lookup_trace entries
                       (arg_assignment_name args) g) as [evs0 [E0 Hno]].
           exists evs0. split; [exact E0|].
           intros canvas_id v Hin. now apply Hno in Hin.
      * unfold grade_repo, get_assignment_id, bind, lift.
        rewrite Hread, Hmult, Hentries. now apply Hnone.
    + unfold grade_repo, bind, lift. rewrite Hread, Hmult. now apply Hnone.
  - rewrite (grade_repo_absent C args username_map repo commit_time g Hread).
    eexists. split; [reflexivity|]. intros ? ? [H|[]]. discriminate.
  - unfold grade_repo, bind, lift. rewrite Hread. now apply Hnone.
Qed.

End Turn.

Section Scoring.

Variable C : Collaborators.
Variable args : cli_args.
Variable username_map : option dataframe.

(** When the gradebook answers, [edit] is called with [score_after]. *)
Lemma grade_repo_posts (repo : string) (g : globals)
  (commit_time : option string) (conclusion : string) (multiplier : float)
  (canvas_id : Z) (v : pyval) :
  get_latest_workflow_commit_time_and_conclusion C repo "main.yml" =
    Ok (commit_time, Some conclusion) ->
  score_multiplier C args commit_time default_comparison_operator =
    Ok multiplier ->
  gradebook_answers C args username_map repo canvas_id ->
  score_after conclusion multiplier (score g) = Some v ->
  In (EditCalled canvas_id v)
     (trace (snd (grade_repo C args username_map repo g))).
Proof.
  intros Hread Hmult [entries [assignment [eid [submission
    [Hentries [Hassignment [Heid [Huser Hsub]]]]]]]] Hscore.
  rewrite (grade_repo_reaches_try C args username_map _ _ _ _ _ _ _
             Hread Hmult Hentries Hassignment).
  rewrite try_except_pass_globals.
  rewrite (submit_grade_reached C _ _ _ _ _ _ _ _ _ Heid Huser Hsub).
  rewrite after_assignment_lookup_score, Hscore.
  destruct (submission_edit C submission v) as [[]|e]; cbn [snd trace];
    apply in_or_app; right; left; reflexivity.
Qed.

(** C2: a repository whose latest matching run has no conclusion is
    skipped (the no-runs line is printed and nothing else happens); on
    "success" without a due-date configuration the multiplier is 1.0 and a
    grade posted in the turn is 1.0; on "failure" a grade posted in the turn
    is the integer 0, equal to 0.0, whatever the due-date configuration;
    and when the gradebook answers, these grades are posted. *)
Theorem base_scoring_rule (repo : string) (g : globals)
  (commit_time : option string) :
  (get_latest_workflow_commit_time_and_conclusion C repo "main.yml" =
     Ok (commit_time, None) ->
   grade_repo C args username_map repo g =
     (Ok tt, {| score := score g;
                trace := trace g ++ [Printed (MsgNoWorkflowRuns repo)] |})) /\
  (get_latest_workflow_commit_time_and_conclusion C repo "main.yml" =
     Ok (commit_time, Some "success") ->
   arg_due args = false ->
   score_multiplier C args commit_time default_comparison_operator =
     Ok 1%float /\
   posts_only g (snd (grade_repo C args username_map repo g)) (PyFloat 1) /\
   forall canvas_id,
     gradebook_answers C args username_map repo canvas_id ->
     In (EditCalled canvas_id (PyFloat 1))
        (trace (snd (grade_repo C args username_map repo g)))) /\
  (get_latest_workflow_commit_time_and_conclusion C repo "main.yml" =
     Ok (commit_time, Some "failure") ->
   py_eq (PyInt 0) (PyFloat 0) = true /\
   posts_only g (snd (grade_repo C args username_map repo g)) (PyInt 0) /\
   forall canvas_id multiplier,
     score_multiplier C args commit_time default_comparison_operator =
       Ok multiplier ->
     gradebook_answers C args username_map repo canvas_id ->
     In (EditCalled canvas_id (PyInt 0))
        (trace (snd (grade_repo C args username_map repo g)))).
Proof.
  split; [apply grade_repo_absent|]. split.
  - intros Hread Hdue.
    pose proof (score_multiplier_no_due C args commit_time
                  default_comparison_operator Hdue) as Hmult.
    split; [exact Hmult|]. split.
    + destruct (grade_repo_trace C args username_map repo g) as [evs [E Hedit]].
      exists evs. split; [exact E|].
      intros canvas_id v Hin.
      destruct (Hedit _ _ Hin) as [ct [conclusion [m [Hread' [Hmult' Hscore]]]]].
      rewrite Hread in Hread'. injection Hread' as <- <-.
      rewrite Hmult in Hmult'. injection Hmult' as <-.
      cbn in Hscore. now injection Hscore as <-.
    + intros canvas_id Hgb.
      now apply (grade_repo_posts repo g commit_time "success" 1%float).
  - intros Hread. split; [reflexivity|]. split.
    + destruct (grade_repo_trace C args username_map repo g) as [evs [E Hedit]].
      exists evs. split; [exact E|].
      intros canvas_id v Hin.
      destruct (Hedit _ _ Hin) as [ct [conclusion [m [Hread' [Hmult' Hscore]]]]].
      rewrite Hread in Hread'. injection Hread' as <- <-.
      cbn in Hscore. now injection Hscore as <-.
    + intros canvas_id multiplier Hmult Hgb.
      now apply (grade_repo_posts repo g commit_time "failure" multiplier).
Qed.

End Scoring.

Lemma base_scoring_rule_witness :
  grade_repo Demo.online Demo.args_plain Demo.identity_map "hw1-docsonly"
    initial_globals =
    (Ok tt, {| score := None;
               trace := [Printed (MsgNoWorkflowRuns "hw1-docsonly")] |}) /\
  In (EditCalled 501 (PyFloat 1))
     (trace (snd (grade_repo Demo.online Demo.args_plain Demo.identity_map
                    "hw1-alice" initial_globals))) /\
  In (EditCalled 503 (PyInt 0))
     (trace (snd (grade_repo Demo.online Demo.args_due Demo.identity_map
                    "hw1-carol" initial_globals))).
Proof.
  split; [|split].
  - apply (base_scoring_rule Demo.online Demo.args_plain Demo.identity_map
             "hw1-docsonly" initial_globals None).
    reflexivity.
  - destruct (base_scoring_rule Demo.online Demo.args_plain Demo.identity_map
                "hw1-alice" initial_globals (Some "2024-01-15T22:00:00-06:00"))
      as [_ [Hsuccess _]].
    destruct (Hsuccess eq_refl eq_refl) as [_ [_ Hpost]].
    apply Hpost. do 4 eexists. repeat split; reflexivity.
  - destruct (base_scoring_rule Demo.online Demo.args_due Demo.identity_map
                "hw1-carol" initial_globals (Some "2024-01-16T00:05:00-06:00"))
      as [_ [_ Hfailure]].
    destruct (Hfailure eq_refl) as [_ [_ Hpost]].
    apply (Hpost 503 1%float); [reflexivity|].
    do 4 eexists. repeat split; reflexivity.
Defined.

(** ** Isolation of submission failures *)

Lemma loc_missing (df : dataframe) (label : string) :
  (forall row, In row df -> fst row <> label) -> loc df label = Raise KeyError.
Proof.
  intros H. unfold loc.
  assert (E : filter (fun row => String.eqb (fst row) label) df = []).
  { induction df as [|row df IH]; [reflexivity|]. cbn.
    destruct (String.eqb (fst row) label) eqn:Erow.
    - apply String.eqb_eq in Erow. now elim (H row (or_introl eq_refl)).
    - apply IH. intros r Hr. apply H. now right. }
  now rewrite E.
Qed.

Section Isolation.

Variable C : Collaborators.
Variable args : cli_args.
Variable username_map : option dataframe.

(** A turn that has reached its [try] statement returns, and the loop goes
    on. *)
Lemma turn_in_try_returns (repo : string) (rest : list string)
  (g : globals) (commit_time : option string) (conclusion : string)
  (multiplier : float) (entries : list assignment_entry)
  (assignment : canvas_assignment C) :
  get_latest_workflow_commit_time_and_conclusion C repo "main.yml" =
    Ok (commit_time, Some conclusion) ->
  score_multiplier C args commit_time default_comparison_operator =
    Ok multiplier ->
  get_assignments C = Ok entries ->
  get_assignment C (assignment_lookup entries (arg_assignment_name args)) =
    Ok assignment ->
  exists g',
    grade_repo C args username_map repo g = (Ok tt, g') /\
    grade_repos C args username_map (repo :: rest) g =
      grade_repos C args username_map rest g'.
Proof.
  intros Hread Hmult Hentries Hassignment.
  pose proof (grade_repo_reaches_try C args username_map repo g _ _ _ _ _
                Hread Hmult Hentries Hassignment) as Hturn.
  set (g1 := after_assignment_lookup entries (arg_assignment_name args) g) in *.
  rewrite Hturn.
  exists (snd (try_except_pass
                 (submit_grade C username_map assignment
                    (strip_github_username repo) conclusion multiplier) g1)).
  split.
  - rewrite (surjective_pairing (try_except_pass _ g1)) at 1.
    now rewrite try_except_pass_returns.
  - cbn [grade_repos]. unfold bind at 1. rewrite Hturn.
    rewrite (surjective_pairing (try_except_pass _ g1)) at 1.
    now rewrite try_except_pass_returns.
Qed.

(** C5: once a turn has reached its [try] statement (a conclusion, a
    multiplier and the assignment object are at hand), it returns normally
    whatever the identity lookup, the user resolution, the submission
    lookup and the posting do, and the loop goes on with the remaining
    repositories.  When the owner-handle is missing from the identity
    mapping, or one of the three lookups raises, nothing is posted; when
    the posting itself raises, no grade update is reported. *)
Theorem submission_failures_are_isolated (repo : string) (rest : list string)
  (g : globals) (commit_time : option string) (conclusion : string)
  (multiplier : float) (entries : list assignment_entry)
  (assignment : canvas_assignment C) :
  get_latest_workflow_commit_time_and_conclusion C repo "main.yml" =
    Ok (commit_time, Some conclusion) ->
  score_multiplier C args commit_time default_comparison_operator =
    Ok multiplier ->
  get_assignments C = Ok entries ->
  get_assignment C (assignment_lookup entries (arg_assignment_name args)) =
    Ok assignment ->
  let g1 := after_assignment_lookup entries (arg_assignment_name args) g in
  (exists g',
      grade_repo C args username_map repo g = (Ok tt, g') /\
      grade_repos C args username_map (repo :: rest) g =
        grade_repos C args username_map rest g') /\
  (forall df,
      username_map = Some df ->
      (forall row, In row df -> fst row <> strip_github_username repo) ->
      grade_repo C args username_map repo g = (Ok tt, g1)) /\
  (forall e,
      lookup_eid username_map (strip_github_username repo) = Raise e \/
      (exists eid,
          lookup_eid username_map (strip_github_username repo) = Ok eid /\
          get_user C eid "sis_login_id" = Raise e) \/
      (exists eid canvas_id,
          lookup_eid username_map (strip_github_username repo) = Ok eid /\
          get_user C eid "sis_login_id" = Ok canvas_id /\
          get_submission C assignment canvas_id = Raise e) ->
      grade_repo C args username_map repo g = (Ok tt, g1)) /\
  (forall eid canvas_id submission v e,
      lookup_eid username_map (strip_github_username repo) = Ok eid ->
      get_user C eid "sis_login_id" = Ok canvas_id ->
      get_submission C assignment canvas_id = Ok submission ->
      score_after conclusion multiplier (score g) = Some v ->
      submission_edit C submission v = Raise e ->
      grade_repo C args username_map repo g =
        (Ok tt, {| score := Some v;
                   trace := trace g1 ++ [EditCalled canvas_id v] |})).
Proof.
  intros Hread Hmult Hentries Hassignment g1.
  pose proof (grade_repo_reaches_try C args username_map repo g _ _ _ _ _
                Hread Hmult Hentries Hassignment) as Hturn.
  fold g1 in Hturn.
  assert (Hraise : forall e,
             lookup_eid username_map (strip_github_username repo) = Raise e \/
             (exists eid,
                 lookup_eid username_map (strip_github_username repo) = Ok eid /\
                 get_user C eid "sis_login_id" = Raise e) \/
             (exists eid canvas_id,
                 lookup_eid username_map (strip_github_username repo) = Ok eid /\
                 get_user C eid "sis_login_id" = Ok canvas_id /\
                 get_submission C assignment canvas_id = Raise e) ->
             grade_repo C args username_map repo g = (Ok tt, g1)).
  { intros e He. rewrite Hturn. unfold try_except_pass.
    now rewrite (submit_grade_lookup_raises C _ _ _ _ _ _ e He). }
  split; [|split; [|split]].
  - now apply (turn_in_try_returns repo rest g commit_time
                 conclusion multiplier entries assignment).
  - intros df Hmap Hmissing. apply (Hraise KeyError). left.
    rewrite Hmap. cbn [lookup_eid]. now apply loc_missing.
  - exact Hraise.
  - intros eid canvas_id submission v e Heid Huser Hsub Hscore Hedit.
    rewrite Hturn. unfold try_except_pass.
    rewrite (submit_grade_reached C _ _ _ _ _ _ _ _ _ Heid Huser Hsub).
    unfold g1 at 1. rewrite after_assignment_lookup_score, Hscore, Hedit.
    reflexivity.
Qed.

(** A batch whose turns all reach their [try] statement runs to its end. *)
Lemma grade_repos_returns (repos : list string) (g : globals)
  (entries : list assignment_entry) (assignment : canvas_assignment C) :
  get_assignments C = Ok entries ->
  get_assignment C (assignment_lookup entries (arg_assignment_name args)) =
    Ok assignment ->
  (forall repo, In repo repos ->
     exists commit_time conclusion,
       get_latest_workflow_commit_time_and_conclusion C repo "main.yml" =
         Ok (commit_time, conclusion) /\
       (conclusion <> None ->
        exists multiplier,
          score_multiplier C args commit_time default_comparison_operator =
            Ok multiplier)) ->
  fst (grade_repos C args username_map repos g) = Ok tt.
Proof.
  intros Hentries Hassignment. revert g.
  induction repos as [|repo rest IH]; intros g Hall; [reflexivity|].
  destruct (Hall repo (or_introl eq_refl)) as [ct [[c|] [Hread Hmult]]].
  - destruct Hmult as [m Hm]; [discriminate|].
    destruct (turn_in_try_returns repo rest g ct c m entries
                assignment Hread Hm Hentries Hassignment) as [g' [_ ->]].
    apply IH. intros r Hr. apply Hall. now right.
  - cbn [grade_repos]. unfold bind at 1.
    rewrite (grade_repo_absent C args username_map repo ct g Hread).
    apply IH. intros r Hr. apply Hall. now right.
Qed.

End Isolation.

Lemma submission_failures_are_isolated_witness :
  lookup_eid Demo.identity_map (strip_github_username "hw1-johndoe") =
    Raise KeyError /\
  grade_repo Demo.online Demo.args_plain Demo.identity_map "hw1-johndoe"
    initial_globals = (Ok tt, initial_globals) /\
  grade_repos Demo.online Demo.args_plain Demo.identity_map
    ["hw1-johndoe"; "hw1-carol"] initial_globals =
  grade_repos Demo.online Demo.args_plain Demo.identity_map ["hw1-carol"]
    initial_globals.
Proof.
  destruct (submission_failures_are_isolated Demo.online Demo.args_plain
              Demo.identity_map "hw1-johndoe" ["hw1-carol"] initial_globals
              (Some "2024-01-15T22:00:00-06:00") "failure" 1%float _ 11
              eq_refl eq_refl eq_refl eq_refl)
    as [[g' [Hturn Hloop]] [_ [Hraise _]]].
  assert (Hkey : lookup_eid Demo.identity_map
                   (strip_github_username "hw1-johndoe") = Raise KeyError)
    by reflexivity.
  pose proof (Hraise KeyError (or_introl Hkey)) as Hskip.
  split; [exact Hkey|]. split; [exact Hskip|].
  rewrite Hloop. rewrite Hturn in Hskip. injection Hskip as ->. reflexivity.
Defined.

(** ** Conclusions other than "success" and "failure" *)

(** C10 fails on the code: [score] is a global of the script, and a
    conclusion that is neither "success" nor "failure" leaves it as the
    previous repository set it.  Here "hw1-alice" succeeds and "hw1-bob"
    was cancelled; bob (gradebook user 502) is posted alice's 1.0. *)
Theorem stale_score_posted_for_unrecognized_conclusion :
  get_latest_workflow_commit_time_and_conclusion Demo.online "hw1-bob"
    "main.yml" = Ok (Some "2024-01-15T22:00:00-06:00", Some "cancelled") /\
  grade_repos Demo.online Demo.args_plain Demo.identity_map
    ["hw1-alice"; "hw1-bob"] initial_globals =
    (Ok tt,
     {| score := Some (PyFloat 1);
        trace := [EditCalled 501 (PyFloat 1);
                  Printed (MsgUpdatedGrade 501 (PyFloat 1));
                  EditCalled 502 (PyFloat 1);
                  Printed (MsgUpdatedGrade 502 (PyFloat 1))] |}).
Proof. split; reflexivity. Qed.

(** In general: when [score] holds a value and the gradebook answers, a
    turn on a conclusion other than "success" and "failure" calls [edit]
    with that value. *)
Lemma unrecognized_conclusion_posts_previous_score (C : Collaborators)
  (args : cli_args) (username_map : option dataframe) (repo : string)
  (g : globals) (commit_time : option string) (conclusion : string)
  (multiplier : float) (canvas_id : Z) (previous : pyval) :
  get_latest_workflow_commit_time_and_conclusion C repo "main.yml" =
    Ok (commit_time, Some conclusion) ->
  String.eqb conclusion "success" = false ->
  String.eqb conclusion "failure" = false ->
  score_multiplier C args commit_time default_comparison_operator =
    Ok multiplier ->
  gradebook_answers C args username_map repo canvas_id ->
  score g = Some previous ->
  In (EditCalled canvas_id previous)
     (trace (snd (grade_repo C args username_map repo g))).
Proof.
  intros Hread Hs Hf Hmult Hgb Hscore.
  apply (grade_repo_posts C args username_map repo g commit_time conclusion
           multiplier); try assumption.
  unfold score_after. now rewrite Hs, Hf.
Qed.

(** While [score] is unbound (no earlier repository of the run assigned
    it), such a conclusion posts nothing: reading [score] raises
    [NameError] inside the [try]. *)
Lemma unrecognized_conclusion_first_turn (C : Collaborators) (args : cli_args)
  (username_map : option dataframe) (repo : string) (g : globals)
  (commit_time : option string) (conclusion : string) :
  get_latest_workflow_commit_time_and_conclusion C repo "main.yml" =
    Ok (commit_time, Some conclusion) ->
  String.eqb conclusion "success" = false ->
  String.eqb conclusion "failure" = false ->
  score g = None ->
  exists evs,
    trace (snd (grade_repo C args username_map repo g)) = (trace g ++ evs)%list /\
    forall canvas_id v, ~ In (EditCalled canvas_id v) evs.
Proof.
  intros Hread Hs Hf Hscore.
  destruct (grade_repo_trace C args username_map repo g) as [evs [E Hedit]].
  exists evs. split; [exact E|]. intros canvas_id v Hin.
  destruct (Hedit _ _ Hin) as [ct [c [m [Hread' [_ Hafter]]]]].
  rewrite Hread in Hread'. injection Hread' as <- <-.
  unfold score_after in Hafter. rewrite Hs, Hf, Hscore in Hafter. discriminate.
Qed.

(** ** The identity mapping *)

Lemma filter_none {A : Type} (f : A -> bool) (l : list A) :
  (forall x, In x l -> f x = false) -> filter f l = [].
Proof.
  induction l as [|x l IH]; intros H; [reflexivity|]. cbn.
  rewrite (H x (or_introl eq_refl)). apply IH. intros y Hy. apply H. now right.
Qed.

Lemma loc_unique (before after : dataframe) (label eid : string) :
  (forall row, In row (before ++ after)%list -> fst row <> label) ->
  loc (before ++ (label, eid) :: after)%list label = Ok (Scalar eid).
Proof.
  intros H. unfold loc. rewrite filter_app. cbn [filter fst].
  rewrite String.eqb_refl.
  rewrite !filter_none; [reflexivity| |].
  - intros row Hrow. apply String.eqb_neq, H, in_or_app. now right.
  - intros row Hrow. apply String.eqb_neq, H, in_or_app. now left.
Qed.

Section Identity.

Variable C : Collaborators.

Lemma read_username_map_local (records : list identity_record)
  (creditials classname : option string) (g : globals) :
  os_path_isfile C "username_map.csv" = true ->
  pd_read_csv C "username_map.csv" = Ok records ->
  read_username_map C creditials classname g =
    (Ok (Some (lowered_and_indexed records)), g).
Proof.
  intros Hfile Hcsv. unfold read_username_map, bind, lift, ret.
  now rewrite Hfile, Hcsv.
Qed.

Lemma username_map_from_google_sheet_records (creditials classname : string)
  (d : document C) (gc : gspread_client C) (sh1 : worksheet C)
  (records : list identity_record) :
  google_creditial_decoder C creditials = Ok d ->
  service_account_from_dict C d = Ok gc ->
  open_sheet1 C gc (classname ++ " Github Names") = Ok sh1 ->
  get_all_records C sh1 = Ok records ->
  records <> [] ->
  username_map_from_google_sheet C creditials classname =
    Ok (lowered_and_indexed records).
Proof.
  intros H1 H2 H3 H4 Hrecords. unfold username_map_from_google_sheet.
  rewrite H1. cbn [obind]. rewrite H2. cbn [obind]. rewrite H3. cbn [obind].
  rewrite H4. cbn [obind]. destruct records; [contradiction|reflexivity].
Qed.

Lemma username_map_from_google_sheet_empty (creditials classname : string)
  (d : document C) (gc : gspread_client C) (sh1 : worksheet C) :
  google_creditial_decoder C creditials = Ok d ->
  service_account_from_dict C d = Ok gc ->
  open_sheet1 C gc (classname ++ " Github Names") = Ok sh1 ->
  get_all_records C sh1 = Ok [] ->
  username_map_from_google_sheet C creditials classname = Raise KeyError.
Proof.
  intros H1 H2 H3 H4. unfold username_map_from_google_sheet.
  rewrite H1. cbn [obind]. rewrite H2. cbn [obind]. rewrite H3. cbn [obind].
  now rewrite H4.
Qed.

(** C8, amended: the local-file loader, and the sheet loader when the
    sheet holds at least one record, build the frame
    [lowered_and_indexed records], whose labels are the lowercased user
    names (a sheet without records makes the sheet loader raise
    [KeyError]); the loop looks up the lowercased owner-handle; so two
    repositories whose owner-handles differ in case only get the same
    answer from the lookup, and when exactly one record carries that user
    name in any case, the answer is its (lowercased) EID. *)
Theorem identity_lookup_case_insensitive (records : list identity_record)
  (tok1 tok2 handle1 handle2 : string) :
  occurs "-" tok1 = false ->
  occurs "-" tok2 = false ->
  lower handle1 = lower handle2 ->
  let df := lowered_and_indexed records in
  (forall creditials classname g,
      os_path_isfile C "username_map.csv" = true ->
      pd_read_csv C "username_map.csv" = Ok records ->
      read_username_map C creditials classname g = (Ok (Some df), g)) /\
  (forall creditials classname d gc sh1,
      google_creditial_decoder C creditials = Ok d ->
      service_account_from_dict C d = Ok gc ->
      open_sheet1 C gc (classname ++ " Github Names") = Ok sh1 ->
      get_all_records C sh1 = Ok records ->
      (records <> [] ->
       username_map_from_google_sheet C creditials classname = Ok df) /\
      (records = [] ->
       username_map_from_google_sheet C creditials classname = Raise KeyError)) /\
  (forall label eid,
      In (label, eid) df ->
      exists r, In r records /\ label = lower (col_Github_Username r) /\
                eid = lower (col_EID r)) /\
  strip_github_username (tok1 ++ "-" ++ handle1) = lower handle1 /\
  lookup_eid (Some df) (strip_github_username (tok1 ++ "-" ++ handle1)) =
  lookup_eid (Some df) (strip_github_username (tok2 ++ "-" ++ handle2)) /\
  (forall before r after,
      records = (before ++ r :: after)%list ->
      lower (col_Github_Username r) = lower handle1 ->
      (forall x, In x (before ++ after)%list ->
                 lower (col_Github_Username x) <> lower handle1) ->
      lookup_eid (Some df) (strip_github_username (tok1 ++ "-" ++ handle1)) =
        Ok (Scalar (lower (col_EID r))) /\
      lookup_eid (Some df) (strip_github_username (tok2 ++ "-" ++ handle2)) =
        Ok (Scalar (lower (col_EID r)))).
Proof.
  intros Htok1 Htok2 Hcase df.
  assert (Hstrip : forall tok handle,
             occurs "-" tok = false ->
             strip_github_username (tok ++ "-" ++ handle) = lower handle).
  { intros tok handle H. unfold strip_github_username.
    change ("-" ++ handle) with (String "-" handle).
    rewrite (split_app_sep _ _ _ H). cbn [tl]. now rewrite join_split. }
  split; [|split; [|split; [|split; [|split]]]].
  - intros creditials classname g. apply read_username_map_local.
  - intros creditials classname d gc sh1 H1 H2 H3 H4. split.
    + intros Hrecords.
      now apply (username_map_from_google_sheet_records creditials classname
                   d gc sh1 records).
    + intros Hrecords. rewrite Hrecords in H4.
      now apply (username_map_from_google_sheet_empty creditials classname
                   d gc sh1).
  - intros label eid Hin. unfold df, lowered_and_indexed in Hin.
    apply in_map_iff in Hin as [r [E Hr]]. injection E as <- <-.
    now exists r.
  - now apply Hstrip.
  - rewrite !Hstrip by assumption. now rewrite Hcase.
  - intros before r after Hrecords Hr Hothers.
    rewrite !Hstrip by assumption. rewrite <- Hcase. cbn [lookup_eid].
    assert (Hloc : loc df (lower handle1) = Ok (Scalar (lower (col_EID r)))).
    { unfold df, lowered_and_indexed. rewrite Hrecords, map_app. cbn [map].
      rewrite Hr. apply loc_unique.
      intros row Hrow. rewrite <- map_app in Hrow.
      apply in_map_iff in Hrow as [x [<- Hx]]. cbn [fst]. now apply Hothers. }
    now split.
Qed.

(** C6, amended to what the [except ValueError] clause does: when the
    local file is absent and reading the sheet raises, a [ValueError] (or
    a subclass, such as the [binascii.Error] of a malformed token) is caught,
    the message is printed and [None] is returned; any other exception,
    such as a network or permission error of the spreadsheet service,
    leaves [read_username_map] and is raised to the caller. *)
Theorem read_username_map_catches_ValueError_only
  (creditials classname : string) (g : globals) (e : exn) :
  os_path_isfile C "username_map.csv" = false ->
  username_map_from_google_sheet C creditials classname = Raise e ->
  (is_ValueError e = true ->
   read_username_map C (Some creditials) (Some classname) g =
     (Ok None, {| score := score g;
                  trace := trace g ++ [Printed MsgErrorReadingSheet] |})) /\
  (is_ValueError e = false ->
   read_username_map C (Some creditials) (Some classname) g = (Raise e, g)).
Proof.
  intros Hfile Hsheet. unfold read_username_map.
  rewrite Hfile, Hsheet. split; intros He; rewrite He; reflexivity.
Qed.

End Identity.

Lemma identity_lookup_case_insensitive_witness :
  lookup_eid Demo.identity_map (strip_github_username ("hw1" ++ "-" ++ "Alice")) =
    Ok (Scalar "aa111") /\
  lookup_eid Demo.identity_map (strip_github_username ("hw1" ++ "-" ++ "ALICE")) =
    Ok (Scalar "aa111") /\
  lookup_eid Demo.identity_map (strip_github_username ("hw1" ++ "-" ++ "alice")) =
    Ok (Scalar "aa111") /\
  username_map_from_google_sheet Demo.online Demo.secret_token "cs101" =
    Ok (lowered_and_indexed Demo.sheet_records) /\
  username_map_from_google_sheet demo_empty_sheet Demo.secret_token "cs101" =
    Raise KeyError.
Proof.
  destruct (identity_lookup_case_insensitive Demo.online Demo.sheet_records
              "hw1" "hw1" "Alice" "ALICE" eq_refl eq_refl eq_refl)
    as [_ [Hsheet [_ [_ [_ H1]]]]].
  destruct (identity_lookup_case_insensitive Demo.online Demo.sheet_records
              "hw1" "hw1" "alice" "alice" eq_refl eq_refl eq_refl)
    as [_ [_ [_ [_ [_ H3]]]]].
  assert (Hothers : forall x,
             In x ([] ++ [ {| col_Github_Username := "bob"; col_EID := "bb222" |};
                           {| col_Github_Username := "Carol"; col_EID := "CC333" |} ])%list ->
             lower (col_Github_Username x) <> "alice")
    by (intros x [<-|[<-|[]]]; cbn; discriminate).
  destruct (H1 [] {| col_Github_Username := "Alice"; col_EID := "AA111" |}
              [ {| col_Github_Username := "bob"; col_EID := "bb222" |};
                {| col_Github_Username := "Carol"; col_EID := "CC333" |} ]
              eq_refl eq_refl Hothers) as [HAlice HALICE].
  destruct (H3 [] {| col_Github_Username := "Alice"; col_EID := "AA111" |}
              [ {| col_Github_Username := "bob"; col_EID := "bb222" |};
                {| col_Github_Username := "Carol"; col_EID := "CC333" |} ]
              eq_refl eq_refl Hothers) as [Halice _].
  split; [exact HAlice|]. split; [exact HALICE|]. split; [exact Halice|].
  destruct (Hsheet Demo.secret_token "cs101" Demo.secret_doc tt tt
              eq_refl eq_refl eq_refl eq_refl) as [Hok _].
  split; [apply Hok; discriminate|].
  destruct (identity_lookup_case_insensitive demo_empty_sheet []
              "hw1" "hw1" "alice" "alice" eq_refl eq_refl eq_refl)
    as [_ [Hempty _]].
  destruct (Hempty Demo.secret_token "cs101" Demo.secret_doc tt tt
              eq_refl eq_refl eq_refl eq_refl) as [_ Hkey].
  now apply Hkey.
Defined.

(** C8 as written fails when a student signed up twice, as "Alice" and as
    "ALICE": both rows are kept under the label "alice", and the lookups
    for the three spellings get a series of two EIDs, not one institutional
    ID. *)
Lemma identity_lookup_counterexample :
  lookup_eid (Some (lowered_and_indexed demo_repeated_records))
    (strip_github_username "hw1-Alice") = Ok (Series ["aa111"; "zz999"]) /\
  lookup_eid (Some (lowered_and_indexed demo_repeated_records))
    (strip_github_username "hw1-ALICE") = Ok (Series ["aa111"; "zz999"]) /\
  lookup_eid (Some (lowered_and_indexed demo_repeated_records))
    (strip_github_username "hw1-alice") = Ok (Series ["aa111"; "zz999"]) /\
  (forall eid,
      lookup_eid (Some (lowered_and_indexed demo_repeated_records))
        (strip_github_username "hw1-alice") <> Ok (Scalar eid)).
Proof.
  repeat split; try reflexivity. intros eid H. discriminate H.
Qed.

(** C6 as written fails: the service refuses the sheet with gspread's
    [APIError], which is no [ValueError]; the exception leaves
    [read_username_map] and ends the run before any repository is
    graded. *)
Lemma read_username_map_counterexample :
  username_map_from_google_sheet Demo.denied Demo.secret_token "cs101" =
    Raise APIError /\
  is_ValueError APIError = false /\
  read_username_map Demo.denied (Some Demo.secret_token) (Some "cs101")
    initial_globals = (Raise APIError, initial_globals) /\
  grading_run Demo.denied Demo.args_plain Demo.secret_token "cs101"
    initial_globals = (Raise APIError, initial_globals).
Proof. repeat split; reflexivity. Qed.

Lemma read_username_map_catches_ValueError_only_witness :
  read_username_map Demo.online (Some "not base64!") (Some "cs101")
    initial_globals =
    (Ok None, {| score := None; trace := [Printed MsgErrorReadingSheet] |}) /\
  read_username_map Demo.denied (Some Demo.secret_token) (Some "cs101")
    initial_globals = (Raise APIError, initial_globals).
Proof.
  destruct (read_username_map_catches_ValueError_only Demo.online
              "not base64!" "cs101" initial_globals BinasciiError
              eq_refl eq_refl) as [Hcaught _].
  destruct (read_username_map_catches_ValueError_only Demo.denied
              Demo.secret_token "cs101" initial_globals APIError
              eq_refl eq_refl) as [_ Hraised].
  split; [apply Hcaught|apply Hraised]; reflexivity.
Defined.

(* ================================================================== *)
(** * Further properties of the script *)
(* ================================================================== *)

(** ** Repository discovery *)

Lemma contains_empty (hay : string) : contains EmptyString hay = true.
Proof. apply contains_spec. now exists EmptyString, hay. Qed.

Lemma filter_all {A : Type} (f : A -> bool) (l : list A) :
  (forall x, f x = true) -> filter f l = l.
Proof.
  intros H. induction l as [|x l IH]; [reflexivity|]. cbn.
  now rewrite H, IH.
Qed.

(** [filter_repos] returns exactly the names of the listing, over all its
    pages, that contain the filter string; it passes a failure of the
    listing on; and the empty filter string selects every repository. *)
Theorem filter_repos_selects_substring_matches (C : Collaborators)
  (org filter_string : string) :
  (forall pages,
      list_for_org C org = Ok pages ->
      exists repos,
        filter_repos C org filter_string = Ok repos /\
        (forall name,
            In name repos <->
            (exists page, In page pages /\ In name page) /\
            is_substring filter_string name) /\
        (filter_string = EmptyString -> repos = List.concat pages)) /\
  (forall e,
      list_for_org C org = Raise e ->
      filter_repos C org filter_string = Raise e).
Proof.
  split.
  - intros pages Hpages. unfold filter_repos. rewrite Hpages. cbn [obind].
    eexists. split; [reflexivity|]. split.
    + intros name. rewrite filter_In, in_concat, contains_spec.
      split.
      * intros [[page [Hp Hn]] Hsub]. split; [now exists page|exact Hsub].
      * intros [[page [Hp Hn]] Hsub]. split; [now exists page|exact Hsub].
    + intros ->. apply filter_all, contains_empty.
  - intros e He. unfold filter_repos. now rewrite He.
Qed.

Lemma filter_repos_selects_substring_matches_witness :
  filter_repos Demo.online "cs101" "hw1" =
    Ok ["hw1-alice"; "hw1-bob"; "hw1-carol"; "hw1-johndoe"] /\
  filter_repos Demo.online "cs101" EmptyString =
    Ok ["hw0-alice"; "hw1-alice"; "hw1-bob"; "hw1-carol"; "hw1-johndoe"].
Proof.
  destruct (filter_repos_selects_substring_matches Demo.online "cs101" "hw1")
    as [Hsome _].
  destruct (Hsome _ eq_refl) as [repos [Hrepos _]].
  destruct (filter_repos_selects_substring_matches Demo.online "cs101"
              EmptyString) as [Hall _].
  destruct (Hall _ eq_refl) as [repos' [Hrepos' [_ Hempty]]].
  split.
  - rewrite Hrepos. cbn in Hrepos. injection Hrepos as <-. reflexivity.
  - rewrite Hrepos'. now rewrite (Hempty eq_refl).
Defined.

(** ** The two readers of the latest run *)

(** [get_latest_workflow_conclusion] returns the conclusion that
    [get_latest_workflow_commit_time_and_conclusion] pairs with the commit
    time; and a conclusion never comes without a commit time, so the
    grading loop never hands [None] to the parser of [score_multiplier]. *)
Theorem readers_agree (C : Collaborators) (repo workflow_filename : string) :
  get_latest_workflow_conclusion C repo workflow_filename =
    omap snd
      (get_latest_workflow_commit_time_and_conclusion C repo workflow_filename) /\
  (forall commit_time conclusion,
      get_latest_workflow_commit_time_and_conclusion C repo workflow_filename =
        Ok (commit_time, Some conclusion) ->
      exists timestr,
        commit_time = Some timestr /\
        parse_commit_time C commit_time = dateutil_parse C timestr false).
Proof.
  unfold get_latest_workflow_conclusion,
    get_latest_workflow_commit_time_and_conclusion.
  destruct (get_latest_workflow_run C repo workflow_filename) as [[run|]|e];
    cbn; (split; [reflexivity|]); intros commit_time conclusion H;
    try discriminate.
  injection H as <- _. now eexists.
Qed.

(** ** The assignment id *)

(** [get_assignment_id] returns the id of the first assignment whose name is
    exactly the given one and prints nothing; when no assignment has that
    name it prints the no-id line and returns [None]; a failure of the
    listing is passed on. *)
Theorem get_assignment_id_first_exact_match (C : Collaborators)
  (assignment_name : string) (g : globals) :
  (forall before a after,
      get_assignments C = Ok (before ++ a :: after)%list ->
      (forall x, In x before -> entry_name x <> assignment_name) ->
      entry_name a = assignment_name ->
      get_assignment_id C assignment_name g = (Ok (Some (entry_id a)), g)) /\
  (forall entries,
      get_assignments C = Ok entries ->
      (forall x, In x entries -> entry_name x <> assignment_name) ->
      get_assignment_id C assignment_name g =
        (Ok None,
         {| score := score g;
            trace := trace g ++ [Printed (MsgNoAssignmentId assignment_name)] |})) /\
  (forall e,
      get_assignments C = Raise e ->
      get_assignment_id C assignment_name g = (Raise e, g)).
Proof.
  split; [|split].
  - intros before a after Hentries Hbefore Ha.
    unfold get_assignment_id, bind, lift. rewrite Hentries.
    assert (E : find (fun a => String.eqb (entry_name a) assignment_name)
                  (before ++ a :: after) = Some a).
    { clear Hentries. induction before as [|x before IH]; cbn.
      - rewrite Ha, String.eqb_refl. reflexivity.
      - assert (Hx : String.eqb (entry_name x) assignment_name = false)
          by (apply String.eqb_neq, Hbefore; now left).
        rewrite Hx. apply IH. intros y Hy. apply Hbefore. now right. }
    now rewrite E.
  - intros entries Hentries Hnone.
    unfold get_assignment_id, bind, lift. rewrite Hentries.
    assert (E : find (fun a => String.eqb (entry_name a) assignment_name)
                  entries = None).
    { clear Hentries. induction entries as [|x entries IH]; [reflexivity|].
      cbn.
      assert (Hx : String.eqb (entry_name x) assignment_name = false)
        by (apply String.eqb_neq, Hnone; now left).
      rewrite Hx. apply IH. intros y Hy. apply Hnone. now right. }
    now rewrite E.
  - intros e He. unfold get_assignment_id, bind, lift. now rewrite He.
Qed.

Lemma get_assignment_id_first_exact_match_witness :
  get_assignment_id Demo.online "hw1" initial_globals =
    (Ok (Some 11), initial_globals) /\
  get_assignment_id Demo.online "HW1" initial_globals =
    (Ok None,
     {| score := None; trace := [Printed (MsgNoAssignmentId "HW1")] |}).
Proof.
  destruct (get_assignment_id_first_exact_match Demo.online "hw1"
              initial_globals) as [Hfound _].
  destruct (get_assignment_id_first_exact_match Demo.online "HW1"
              initial_globals) as [_ [Hnone _]].
  split.
  - apply (Hfound [ {| entry_name := "hw0"; entry_id := 10 |} ]
             {| entry_name := "hw1"; entry_id := 11 |} []).
    + reflexivity.
    + intros x [<-|[]]. cbn. discriminate.
    + reflexivity.
  - apply (Hnone _ eq_refl).
    intros x [<-|[<-|[]]]; cbn; discriminate.
Defined.

Lemma readers_agree_witness :
  exists timestr,
    Some "2024-01-15T22:00:00-06:00" = Some timestr /\
    parse_commit_time Demo.online (Some "2024-01-15T22:00:00-06:00") =
      dateutil_parse Demo.online timestr false.
Proof.
  destruct (readers_agree Demo.online "hw1-alice" "main.yml") as [_ H].
  apply (H (Some "2024-01-15T22:00:00-06:00") "success"). reflexivity.
Defined.

(** ** The grading loop, turn by turn *)

Section Batch.

Variable C : Collaborators.
Variable args : cli_args.
Variable username_map : option dataframe.

(** A turn, spelled out along the answers of the collaborators. *)
Lemma grade_repo_cases (repo : string) (g : globals) :
  grade_repo C args username_map repo g =
    match get_latest_workflow_commit_time_and_conclusion C repo "main.yml" with
    | Raise e => (Raise e, g)
    | Ok (commit_time, None) =>
        (Ok tt, {| score := score g;
                   trace := trace g ++ [Printed (MsgNoWorkflowRuns repo)] |})
    | Ok (commit_time, Some conclusion) =>
        match score_multiplier C args commit_time default_comparison_operator with
        | Raise e => (Raise e, g)
        | Ok multiplier =>
            match get_assignments C with
            | Raise e => (Raise e, g)
            | Ok entries =>
                let g1 :=
                  after_assignment_lookup entries (arg_assignment_name args) g in
                match get_assignment C
                        (assignment_lookup entries (arg_assignment_name args))
                with
                | Raise e => (Raise e, g1)
                | Ok assignment =>
                    try_except_pass
                      (submit_grade C username_map assignment
                         (strip_github_username repo) conclusion multiplier) g1
                end
            end
        end
    end.
Proof.
  destruct (get_latest_workflow_commit_time_and_conclusion C repo "main.yml")
    as [[commit_time [conclusion|]]|e] eqn:Hread.
  - destruct (score_multiplier C args commit_time default_comparison_operator)
      as [multiplier|e] eqn:Hmult.
    + destruct (get_assignments C) as [entries|e] eqn:Hentries.
      * cbv zeta.
        destruct (get_assignment C
                    (assignment_lookup entries (arg_assignment_name args)))
          as [assignment|e] eqn:Hassignment.
        -- exact (grade_repo_reaches_try C args username_map repo g commit_time
                    conclusion multiplier entries assignment Hread Hmult
                    Hentries Hassignment).
        -- unfold grade_repo, bind at 1 2 3, lift at 1 2.
           rewrite Hread, Hmult.
           unfold bind at 1. rewrite (get_assignment_id_run C _ _ _ Hentries).
           unfold bind, lift. now rewrite Hassignment.
      * unfold grade_repo, get_assignment_id, bind, lift.
        now rewrite Hread, Hmult, Hentries.
    + unfold grade_repo, bind, lift. now rewrite Hread, Hmult.
  - now apply grade_repo_absent with (commit_time := commit_time).
  - unfold grade_repo, bind, lift. now rewrite Hread.
Qed.

(** The loop stops at the first turn that raises. *)
Lemma grade_repos_cons (repo : string) (rest : list string) (g : globals) :
  grade_repos C args username_map (repo :: rest) g =
    match grade_repo C args username_map repo g with
    | (Ok _, g') => grade_repos C args username_map rest g'
    | (Raise e, g') => (Raise e, g')
    end.
Proof. reflexivity. Qed.

(** The [try] body, spelled out along the answers of the collaborators. *)
Lemma submit_grade_cases (assignment : canvas_assignment C)
  (github_username conclusion : string) (multiplier : float) (g : globals) :
  submit_grade C username_map assignment github_username conclusion multiplier g
    = match lookup_eid username_map github_username with
      | Raise e => (Raise e, g)
      | Ok eid =>
          match get_user C eid "sis_login_id" with
          | Raise e => (Raise e, g)
          | Ok canvas_id =>
              match get_submission C assignment canvas_id with
              | Raise e => (Raise e, g)
              | Ok submission =>
                  match score_after conclusion multiplier (score g) with
                  | None => (Raise NameError, g)
                  | Some v =>
                      match submission_edit C submission v with
                      | Ok _ =>
                          (Ok tt,
                           {| score := Some v;
                              trace :=
                                trace g ++
                                [EditCalled canvas_id v;
                                 Printed (MsgUpdatedGrade canvas_id v)] |})
                      | Raise e =>
                          (Raise e,
                           {| score := Some v;
                              trace := trace g ++ [EditCalled canvas_id v] |})
                      end
                  end
              end
          end
      end.
Proof.
  destruct (lookup_eid username_map github_username) as [eid|e] eqn:H1.
  2:{ apply submit_grade_lookup_raises. now left. }
  destruct (get_user C eid "sis_login_id") as [canvas_id|e] eqn:H2.
  2:{ apply submit_grade_lookup_raises. right. left. now exists eid. }
  destruct (get_submission C assignment canvas_id) as [submission|e] eqn:H3.
  2:{ apply submit_grade_lookup_raises. right. right. now exists eid, canvas_id. }
  now apply submit_grade_reached with (eid := eid).
Qed.

Lemma no_edit_in (evs : list event) (canvas_id : Z) (v : pyval) :
  filter is_edit evs = [] -> ~ In (EditCalled canvas_id v) evs.
Proof.
  intros Hfilter Hin.
  assert (H : In (EditCalled canvas_id v) (filter is_edit evs))
    by (apply filter_In; now split).
  now rewrite Hfilter in H.
Qed.

(** Where a line reporting a grade update can stand in a turn that ends
    with a call of [edit] and its report. *)
Lemma updated_line_position (pre before after : list event)
  (canvas_id id' : Z) (v v' : pyval) :
  (forall i w, ~ In (Printed (MsgUpdatedGrade i w)) pre) ->
  (pre ++ [EditCalled canvas_id v; Printed (MsgUpdatedGrade canvas_id v)])%list =
    (before ++ Printed (MsgUpdatedGrade id' v') :: after)%list ->
  after = [] /\ before = (pre ++ [EditCalled canvas_id v])%list /\
  id' = canvas_id /\ v' = v.
Proof.
  revert before. induction pre as [|p pre IH]; intros before Hpre H.
  - destruct before as [|b before]; cbn in H; [discriminate|].
    injection H as <- H.
    destruct before as [|b before]; cbn in H.
    + injection H as <- <- <-. repeat split.
    + injection H as _ H. destruct before; discriminate.
  - destruct before as [|b before]; cbn in H.
    + injection H as -> _. exfalso. apply (Hpre id' v'). now left.
    + injection H as <- H.
      destruct (IH before (fun i w Hin => Hpre i w (or_intror Hin)) H)
        as [Hafter [Hbefore [Hid Hv]]].
      subst. repeat split.
Qed.

Section Segments.

Variable repo : string.

Lemma segment_without_edit (seg : list event) :
  filter is_edit seg = [] ->
  (forall i w, ~ In (Printed (MsgUpdatedGrade i w)) seg) ->
  turn_segment C username_map repo seg.
Proof.
  intros Hfilter Hupd. split; [|split].
  - rewrite Hfilter. cbn. lia.
  - intros canvas_id v Hin. now apply no_edit_in in Hin.
  - intros before canvas_id v after ->. exfalso.
    apply (Hupd canvas_id v). apply in_elt.
Qed.

Lemma segment_edit_refused (pre : list event) (eid : loc_value)
  (canvas_id : Z) (v : pyval) :
  filter is_edit pre = [] ->
  (forall i w, ~ In (Printed (MsgUpdatedGrade i w)) pre) ->
  lookup_eid username_map (strip_github_username repo) = Ok eid ->
  get_user C eid "sis_login_id" = Ok canvas_id ->
  turn_segment C username_map repo (pre ++ [EditCalled canvas_id v]).
Proof.
  intros Hfilter Hupd Heid Huser. split; [|split].
  - rewrite filter_app, Hfilter. cbn. lia.
  - intros id w Hin. apply in_app_or in Hin as [Hin|[Hin|[]]].
    + now apply no_edit_in in Hin.
    + injection Hin as <- _. now exists eid.
  - intros before id w after H. exfalso.
    assert (Hin : In (Printed (MsgUpdatedGrade id w))
                    (pre ++ [EditCalled canvas_id v]))
      by (rewrite H; apply in_elt).
    apply in_app_or in Hin as [Hin|[Hin|[]]]; [|discriminate].
    now apply Hupd in Hin.
Qed.

Lemma segment_posted (pre : list event) (eid : loc_value)
  (canvas_id : Z) (v : pyval) :
  filter is_edit pre = [] ->
  (forall i w, ~ In (Printed (MsgUpdatedGrade i w)) pre) ->
  lookup_eid username_map (strip_github_username repo) = Ok eid ->
  get_user C eid "sis_login_id" = Ok canvas_id ->
  turn_segment C username_map repo
    (pre ++ [EditCalled canvas_id v; Printed (MsgUpdatedGrade canvas_id v)]).
Proof.
  intros Hfilter Hupd Heid Huser. split; [|split].
  - rewrite filter_app, Hfilter. cbn. lia.
  - intros id w Hin. apply in_app_or in Hin as [Hin|[Hin|[Hin|[]]]].
    + now apply no_edit_in in Hin.
    + injection Hin as <- _. now exists eid.
    + discriminate.
  - intros before id w after H.
    destruct (updated_line_position _ _ _ _ _ _ _ Hupd H)
      as [Hafter [Hbefore [-> ->]]].
    split; [exact Hafter|]. now exists pre.
Qed.

(** The events of a turn. *)
Lemma turn_events (g : globals) :
  exists seg,
    trace (snd (grade_repo C args username_map repo g)) = (trace g ++ seg)%list /\
    turn_segment C username_map repo seg.
Proof.
  assert (Hnil : exists seg,
             trace g = (trace g ++ seg)%list /\
             turn_segment C username_map repo seg).
  { exists []. rewrite app_nil_r. split; [reflexivity|].
    apply segment_without_edit; [reflexivity|intros ? ? []]. }
  rewrite grade_repo_cases.
  destruct (get_latest_workflow_commit_time_and_conclusion C repo "main.yml")
    as [[commit_time [conclusion|]]|e]; [| |exact Hnil].
  - destruct (score_multiplier C args commit_time default_comparison_operator)
      as [multiplier|e]; [|exact Hnil].
    destruct (get_assignments C) as [entries|e]; [|exact Hnil].
    cbv zeta.
    set (g1 := after_assignment_lookup entries (arg_assignment_name args) g).
    assert (Hg1 : exists pre,
               trace g1 = (trace g ++ pre)%list /\
               filter is_edit pre = [] /\
               forall i w, ~ In (Printed (MsgUpdatedGrade i w)) pre).
    { unfold g1, after_assignment_lookup.
      destruct (assignment_lookup entries (arg_assignment_name args)).
      - exists []. rewrite app_nil_r. repeat split. intros ? ? [].
      - eexists. split; [reflexivity|]. split; [reflexivity|].
        intros ? ? [H|[]]. discriminate. }
    destruct Hg1 as [pre [Epre [Hfilter Hupd]]].
    assert (Hquiet : exists seg,
               trace g1 = (trace g ++ seg)%list /\
               turn_segment C username_map repo seg).
    { exists pre. split; [exact Epre|]. now apply segment_without_edit. }
    destruct (get_assignment C
                (assignment_lookup entries (arg_assignment_name args)))
      as [assignment|e]; [|exact Hquiet].
    rewrite try_except_pass_globals, submit_grade_cases.
    destruct (lookup_eid username_map (strip_github_username repo))
      as [eid|e] eqn:Heid; [|exact Hquiet].
    destruct (get_user C eid "sis_login_id") as [canvas_id|e] eqn:Huser;
      [|exact Hquiet].
    destruct (get_submission C assignment canvas_id) as [submission|e];
      [|exact Hquiet].
    destruct (score_after conclusion multiplier (score g1)) as [v|];
      [|exact Hquiet].
    destruct (submission_edit C submission v) as [[]|e]; cbn [snd trace].
    + exists (pre ++ [EditCalled canvas_id v;
                       Printed (MsgUpdatedGrade canvas_id v)])%list.
      split; [rewrite Epre; now rewrite app_assoc|].
      now apply (segment_posted pre eid).
    + exists (pre ++ [EditCalled canvas_id v])%list.
      split; [rewrite Epre; now rewrite app_assoc|].
      now apply (segment_edit_refused pre eid).
  - eexists. cbn [snd trace]. split; [reflexivity|].
    apply segment_without_edit; [reflexivity|].
    intros ? ? [H|[]]. discriminate.
Qed.

End Segments.

(** Over a batch, the trace grows by one segment per repository visited,
    in order; in the segment of a repository [edit] is called at most once,
    and only for the gradebook user its owner-handle resolves to; and a line
    reporting a grade update is the last event of its segment and comes
    directly after the call of [edit] for the same user and grade. *)
Theorem at_most_one_edit_per_repository (repos : list string) (g : globals) :
  exists segments,
    trace (snd (grade_repos C args username_map repos g)) =
      (trace g ++ List.concat segments)%list /\
    Forall2 (turn_segment C username_map)
      (firstn (List.length segments) repos) segments.
Proof.
  revert g. induction repos as [|repo rest IH]; intros g.
  - exists []. cbn. rewrite app_nil_r. split; [reflexivity|constructor].
  - rewrite grade_repos_cons.
    destruct (turn_events repo g) as [seg [E0 Hseg]].
    destruct (grade_repo C args username_map repo g) as [[[]|e] g'];
      cbn [snd] in E0.
    + destruct (IH g') as [segments [E1 Hsegments]].
      exists (seg :: segments). split.
      * rewrite E1, E0. cbn [List.concat]. now rewrite app_assoc.
      * cbn [List.length firstn]. now constructor.
    + exists [seg]. cbn [snd List.concat List.length firstn]. split.
      * now rewrite app_nil_r.
      * constructor; [exact Hseg|constructor].
Qed.

End Batch.

(** ** A run without an identity mapping *)

Section NoMapping.

Variable C : Collaborators.
Variable args : cli_args.

Lemma turn_without_mapping (repo : string) (g : globals) :
  score (snd (grade_repo C args None repo g)) = score g /\
  exists evs,
    trace (snd (grade_repo C args None repo g)) = (trace g ++ evs)%list /\
    filter is_edit evs = [].
Proof.
  assert (Hnil : score g = score g /\
                 exists evs, trace g = (trace g ++ evs)%list /\
                             filter is_edit evs = []).
  { split; [reflexivity|]. exists []. now rewrite app_nil_r. }
  rewrite grade_repo_cases.
  destruct (get_latest_workflow_commit_time_and_conclusion C repo "main.yml")
    as [[commit_time [conclusion|]]|e]; [| |exact Hnil].
  - destruct (score_multiplier C args commit_time default_comparison_operator)
      as [multiplier|e]; [|exact Hnil].
    destruct (get_assignments C) as [entries|e]; [|exact Hnil].
    cbv zeta.
    assert (Hg1 : score (after_assignment_lookup entries
                           (arg_assignment_name args) g) = score g /\
                  exists evs,
                    trace (after_assignment_lookup entries
                             (arg_assignment_name args) g) =
                      (trace g ++ evs)%list /\
                    filter is_edit evs = []).
    { split; [apply after_assignment_lookup_score|].
      unfold after_assignment_lookup.
      destruct (assignment_lookup entries (arg_assignment_name args)).
      - exists []. now rewrite app_nil_r.
      - eexists. split; reflexivity. }
    destruct (get_assignment C
                (assignment_lookup entries (arg_assignment_name args)))
      as [assignment|e]; [|exact Hg1].
    rewrite try_except_pass_globals, submit_grade_cases. cbn [lookup_eid snd].
    exact Hg1.
  - cbn [snd score trace]. split; [reflexivity|]. eexists.
    split; reflexivity.
Qed.

(** With neither a local file nor both a credential and a class name,
    [read_username_map] prints its advice and returns [None]; and a batch
    graded with [None] as the identity mapping never calls [edit] and
    leaves [score] as it was: every lookup fails inside the [try]. *)
Theorem no_identity_mapping_posts_nothing :
  (forall creditials classname g,
      os_path_isfile C "username_map.csv" = false ->
      creditials = None \/ classname = None ->
      read_username_map C creditials classname g =
        (Ok None, {| score := score g;
                     trace := trace g ++ [Printed MsgNoUsernameMap] |})) /\
  (forall repos g,
      score (snd (grade_repos C args None repos g)) = score g /\
      exists evs,
        trace (snd (grade_repos C args None repos g)) = (trace g ++ evs)%list /\
        filter is_edit evs = []).
Proof.
  split.
  - intros creditials classname g Hfile Hnone. unfold read_username_map.
    rewrite Hfile. destruct Hnone as [-> | ->]; [reflexivity|].
    destruct creditials; reflexivity.
  - induction repos as [|repo rest IH]; intros g.
    + split; [reflexivity|]. exists []. cbn. now rewrite app_nil_r.
    + rewrite grade_repos_cons.
      destruct (turn_without_mapping repo g) as [Hscore [evs0 [E0 Hedit0]]].
      destruct (grade_repo C args None repo g) as [[[]|e] g'];
        cbn [snd] in Hscore, E0.
      * destruct (IH g') as [Hscore' [evs1 [E1 Hedit1]]].
        split; [now rewrite Hscore'|].
        exists (evs0 ++ evs1)%list. split.
        -- rewrite E1, E0. now rewrite app_assoc.
        -- now rewrite filter_app, Hedit0, Hedit1.
      * cbn [snd]. split; [exact Hscore|]. now exists evs0.
Qed.

End NoMapping.

Lemma no_identity_mapping_posts_nothing_witness :
  read_username_map Demo.online None (Some "cs101") initial_globals =
    (Ok None, {| score := None; trace := [Printed MsgNoUsernameMap] |}) /\
  grade_repos Demo.online Demo.args_plain None ["hw1-alice"; "hw1-carol"]
    initial_globals = (Ok tt, initial_globals).
Proof.
  destruct (no_identity_mapping_posts_nothing Demo.online Demo.args_plain)
    as [Hload _].
  split; [|reflexivity].
  apply (Hload None (Some "cs101") initial_globals); [reflexivity|now left].
Defined.

(** ** What ends a run *)

Section Abort.

Variable C : Collaborators.
Variable args : cli_args.
Variable username_map : option dataframe.

(** The reader, [score_multiplier] and the two assignment calls run outside
    the [try]: when one of them raises in the turn of a repository, the
    exception leaves the loop, nothing is posted in that turn and the
    remaining repositories are not visited. *)
Theorem failures_outside_try_end_the_run (repo : string) (rest : list string)
  (g : globals) (e : exn) :
  (get_latest_workflow_commit_time_and_conclusion C repo "main.yml" = Raise e ->
   grade_repos C args username_map (repo :: rest) g = (Raise e, g)) /\
  (forall commit_time conclusion,
      get_latest_workflow_commit_time_and_conclusion C repo "main.yml" =
        Ok (commit_time, Some conclusion) ->
      score_multiplier C args commit_time default_comparison_operator =
        Raise e ->
      grade_repos C args username_map (repo :: rest) g = (Raise e, g)) /\
  (forall commit_time conclusion multiplier,
      get_latest_workflow_commit_time_and_conclusion C repo "main.yml" =
        Ok (commit_time, Some conclusion) ->
      score_multiplier C args commit_time default_comparison_operator =
        Ok multiplier ->
      get_assignments C = Raise e ->
      grade_repos C args username_map (repo :: rest) g = (Raise e, g)) /\
  (forall commit_time conclusion multiplier entries,
      get_latest_workflow_commit_time_and_conclusion C repo "main.yml" =
        Ok (commit_time, Some conclusion) ->
      score_multiplier C args commit_time default_comparison_operator =
        Ok multiplier ->
      get_assignments C = Ok entries ->
      get_assignment C (assignment_lookup entries (arg_assignment_name args)) =
        Raise e ->
      grade_repos C args username_map (repo :: rest) g =
        (Raise e, after_assignment_lookup entries (arg_assignment_name args) g)).
Proof.
  rewrite grade_repos_cons, grade_repo_cases. repeat split.
  - intros H. now rewrite H.
  - intros commit_time conclusion H1 H2. now rewrite H1, H2.
  - intros commit_time conclusion multiplier H1 H2 H3. now rewrite H1, H2, H3.
  - intros commit_time conclusion multiplier entries H1 H2 H3 H4.
    rewrite H1, H2, H3. cbv zeta. now rewrite H4.
Qed.

(** A batch of repositories whose outcomes all lack a conclusion prints one
    no-runs line per repository, in order, and does nothing else. *)
Theorem batch_without_conclusions (repos : list string) (g : globals) :
  (forall repo, In repo repos ->
     exists commit_time,
       get_latest_workflow_commit_time_and_conclusion C repo "main.yml" =
         Ok (commit_time, None)) ->
  grade_repos C args username_map repos g =
    (Ok tt, {| score := score g; trace := trace g ++ no_runs_lines repos |}).
Proof.
  revert g. induction repos as [|repo rest IH]; intros g Hall.
  - cbn. rewrite app_nil_r. now destruct g.
  - destruct (Hall repo (or_introl eq_refl)) as [commit_time Hread].
    rewrite grade_repos_cons.
    rewrite (grade_repo_absent C args username_map repo commit_time g Hread).
    rewrite IH by (intros r Hr; apply Hall; now right).
    cbn [score trace no_runs_lines map]. now rewrite <- app_assoc.
Qed.

End Abort.

Lemma failures_outside_try_end_the_run_witness :
  grade_repos Demo.online demo_args_bad_due Demo.identity_map
    ["hw1-alice"; "hw1-carol"] initial_globals =
    (Raise ValueError, initial_globals).
Proof.
  destruct (failures_outside_try_end_the_run Demo.online demo_args_bad_due
              Demo.identity_map "hw1-alice" ["hw1-carol"] initial_globals
              ValueError) as [_ [Hmult _]].
  apply (Hmult (Some "2024-01-15T22:00:00-06:00") "success"); reflexivity.
Defined.

Lemma batch_without_conclusions_witness :
  grade_repos Demo.online Demo.args_plain Demo.identity_map
    ["hw1-docsonly"; "hw1-nobody"] initial_globals =
    (Ok tt,
     {| score := None;
        trace := [Printed (MsgNoWorkflowRuns "hw1-docsonly");
                  Printed (MsgNoWorkflowRuns "hw1-nobody")] |}).
Proof.
  apply (batch_without_conclusions Demo.online Demo.args_plain
           Demo.identity_map ["hw1-docsonly"; "hw1-nobody"] initial_globals).
  intros repo [<-|[<-|[]]]; exists None; reflexivity.
Defined.

(** ** Tokens *)

Lemma omap_raise {A B : Type} (f : A -> B) (m : outcome A) (e : exn) :
  omap f m = Raise e -> m = Raise e.
Proof. destruct m; cbn; congruence. Qed.

Lemma a2b_base64_loop_raises (data : list Z) (quad_pos leftchar pads : Z)
  (e : exn) :
  a2b_base64_loop quad_pos leftchar pads data = Raise e -> e = BinasciiError.
Proof.
  revert quad_pos leftchar pads.
  induction data as [|ch rest IH]; intros quad_pos leftchar pads;
    cbn [a2b_base64_loop].
  - destruct (quad_pos =? 0); congruence.
  - destruct (ch =? BASE64_PAD).
    + destruct ((2 <=? quad_pos) && (4 <=? quad_pos + (pads + 1)));
        [discriminate|apply IH].
    + destruct (a2b ch) as [this_ch|]; [|apply IH].
      destruct (quad_pos =? 0); [apply IH|].
      destruct (quad_pos =? 1); [intros H; apply omap_raise in H; eapply IH, H|].
      destruct (quad_pos =? 2); intros H; apply omap_raise in H; eapply IH, H.
Qed.

Lemma bytes_decode_ascii_raises (bs : list Z) (e : exn) :
  bytes_decode_ascii bs = Raise e -> e = UnicodeDecodeError.
Proof.
  induction bs as [|b bs IH]; cbn [bytes_decode_ascii]; [discriminate|].
  destruct ((0 <=? b) && (b <? 128)); [|congruence].
  intros H. apply omap_raise in H. now apply IH.
Qed.

Lemma token_text_raises (token : string) (e : exn) :
  token_text token = Raise e -> is_ValueError e = true.
Proof.
  unfold token_text, b64decode.
  destruct (str_encode_ascii token) as [data|e0]; cbn.
  - destruct (a2b_base64_loop 0 0 0 data) as [bs|e1] eqn:E; cbn.
    + intros H. apply bytes_decode_ascii_raises in H. now subst.
    + intros H. injection H as <-. apply a2b_base64_loop_raises in E. now subst.
  - intros H. injection H as <-. reflexivity.
Qed.

(** A token that is no base64 of ascii text (a character outside ascii, an
    unfinished group of four, a decoded byte outside ascii) makes the
    decoder raise a [ValueError], and [read_username_map], without a local
    file, then prints its error line and returns [None]: the exception does
    not reach the caller. *)
Theorem malformed_token_is_reported (C : Collaborators)
  (token classname : string) (g : globals) (e : exn) :
  os_path_isfile C "username_map.csv" = false ->
  token_text token = Raise e ->
  google_creditial_decoder C token = Raise e /\
  is_ValueError e = true /\
  read_username_map C (Some token) (Some classname) g =
    (Ok None, {| score := score g;
                 trace := trace g ++ [Printed MsgErrorReadingSheet] |}).
Proof.
  intros Hfile Htext.
  pose proof (token_text_raises _ _ Htext) as Hvalue.
  assert (Hdec : google_creditial_decoder C token = Raise e).
  { unfold google_creditial_decoder. unfold token_text in Htext.
    destruct (b64decode token) as [bs|e0]; cbn in *.
    - now rewrite Htext.
    - now injection Htext as <-. }
  split; [exact Hdec|]. split; [exact Hvalue|].
  unfold read_username_map, username_map_from_google_sheet.
  rewrite Hfile, Hdec. cbn [obind]. now rewrite Hvalue.
Qed.

Lemma malformed_token_is_reported_witness :
  google_creditial_decoder Demo.online "eyJ0eXBlI" = Raise BinasciiError /\
  read_username_map Demo.online (Some "eyJ0eXBlI") (Some "cs101")
    initial_globals =
    (Ok None, {| score := None; trace := [Printed MsgErrorReadingSheet] |}).
Proof.
  destruct (malformed_token_is_reported Demo.online "eyJ0eXBlI" "cs101"
              initial_globals BinasciiError eq_refl eq_refl) as [Hdec [_ Hmap]].
  split; [exact Hdec|exact Hmap].
Defined.

(** *** The shape of an encoded token *)

Lemma str_encode_ascii_ords (s : string) (bs : list Z) :
  str_encode_ascii s = Ok bs -> bs = ords s.
Proof.
  revert bs. induction s as [|c s IH]; intros bs; cbn [str_encode_ascii ords].
  - congruence.
  - destruct (ord c <? 128); [|discriminate].
    destruct (str_encode_ascii s) as [bs'|]; cbn; [|discriminate].
    intros H. injection H as <-. now rewrite (IH bs' eq_refl).
Qed.

Lemma bytes_decode_ascii_ords (bs : list Z) (s : string) :
  bytes_decode_ascii bs = Ok s -> ords s = bs.
Proof.
  revert s. induction bs as [|b bs IH]; intros s; cbn [bytes_decode_ascii].
  - intros H. injection H as <-. reflexivity.
  - destruct ((0 <=? b) && (b <? 128)) eqn:E; [|discriminate].
    destruct (bytes_decode_ascii bs) as [s'|]; cbn; [|discriminate].
    intros H. injection H as <-. cbn [ords]. rewrite (IH s' eq_refl).
    apply andb_true_iff in E as [H0 H1].
    apply Z.leb_le in H0. apply Z.ltb_lt in H1.
    rewrite ord_chr by (unfold is_byte; lia). reflexivity.
Qed.

Lemma ords_length (s : string) : List.length (ords s) = String.length s.
Proof. induction s as [|c s IH]; cbn; [reflexivity|now rewrite IH]. Qed.

Lemma b2a_in_table (s : Z) : is_sextet s = true -> In (b2a s) table_b2a_base64.
Proof.
  intros H. unfold is_sextet in H. apply andb_true_iff in H as [H0 H1].
  apply Z.leb_le in H0. apply Z.ltb_lt in H1.
  unfold b2a. apply nth_In.
  change (List.length table_b2a_base64) with 64%nat. lia.
Qed.

Lemma b64encode_alphabet (bin : list Z) :
  Forall is_byte bin -> Forall is_base64_byte (b64encode bin).
Proof.
  pose proof is_byte_0 as H0.
  induction bin as [|a|a b|a b c rest IH] using list_ind3; intros H;
    cbn [b64encode].
  - constructor.
  - inversion H as [|? ? Ha _]; subst. pair_facts a 0.
    rewrite <- sextet2_0.
    repeat (apply Forall_cons;
            [first [left; now apply b2a_in_table | now right]|]).
    constructor.
  - inversion H as [|? ? Ha Hb']; subst. inversion Hb' as [|? ? Hb _]; subst.
    pair_facts a b. pair_facts b 0. rewrite <- sextet3_0.
    repeat (apply Forall_cons;
            [first [left; now apply b2a_in_table | now right]|]).
    constructor.
  - inversion H as [|? ? Ha Hbc]; subst. inversion Hbc as [|? ? Hb Hc']; subst.
    inversion Hc' as [|? ? Hc Hrest]; subst.
    pair_facts a b. pair_facts b c. pair_facts c c.
    repeat (apply Forall_cons; [left; now apply b2a_in_table|]).
    now apply IH.
Qed.

Lemma b64encode_length (bin : list Z) :
  List.length (b64encode bin) = (4 * ((List.length bin + 2) / 3))%nat.
Proof.
  induction bin as [|a|a b|a b c rest IH] using list_ind3; try reflexivity.
  cbn [b64encode List.length]. rewrite IH.
  replace (S (S (S (List.length rest))) + 2)%nat
    with (List.length rest + 2 + 1 * 3)%nat by lia.
  rewrite Nat.div_add by lia. lia.
Qed.

Lemma string_forallb_ords (p : ascii -> bool) (q : Z -> Prop) (s : string) :
  (forall c, q (ord c) -> p c = true) ->
  Forall q (ords s) -> string_forallb p s = true.
Proof.
  intros Hpq. induction s as [|c s IH]; cbn; intros H; [reflexivity|].
  inversion H; subst. rewrite Hpq by assumption. now apply IH.
Qed.

Lemma is_base64_byte_char (c : ascii) :
  is_base64_byte (ord c) -> is_base64_char c = true.
Proof.
  unfold is_base64_byte, is_base64_char. intros [H| ->].
  - apply orb_true_iff. left. apply existsb_exists.
    exists (ord c). split; [exact H|apply Z.eqb_refl].
  - apply orb_true_iff. right. apply Z.eqb_refl.
Qed.

Lemma str_encode_ascii_is_ascii (s : string) (bs : list Z) :
  str_encode_ascii s = Ok bs -> is_ascii s = true.
Proof.
  revert bs. induction s as [|c s IH]; intros bs; cbn; [reflexivity|].
  destruct (ord c <? 128); [|discriminate].
  destruct (str_encode_ascii s) as [bs'|]; [|discriminate].
  intros _. now apply (IH bs').
Qed.

(** What [google_creditial_encoder] hands out. *)
Lemma google_creditial_encoder_inv (C : Collaborators)
  (json_file token : string) :
  google_creditial_encoder C json_file = Ok token ->
  exists text d,
    open_read C json_file = Ok text /\
    json_loads C text = Ok d /\
    is_ascii (json_dumps C d) = true /\
    ords token = b64encode (ords (json_dumps C d)).
Proof.
  unfold google_creditial_encoder.
  destruct (open_read C json_file) as [text|] eqn:Hopen; cbn [obind];
    [|discriminate].
  destruct (json_loads C text) as [d|] eqn:Hload; cbn [obind]; [|discriminate].
  destruct (str_encode_ascii (json_dumps C d)) as [bs|] eqn:Hbs;
    cbn [obind]; [|discriminate].
  intros Htoken. exists text, d.
  split; [reflexivity|]. split; [exact Hload|]. split.
  - now apply (str_encode_ascii_is_ascii _ bs).
  - rewrite (bytes_decode_ascii_ords _ _ Htoken).
    now rewrite (str_encode_ascii_ords _ _ Hbs).
Qed.

Lemma ords_ascii (s : string) : is_ascii s = true -> Forall is_byte (ords s).
Proof.
  intros _. induction s as [|c s IH]; cbn; constructor;
    [apply ord_range|exact IH].
Qed.

(** A token [google_creditial_encoder] returns is made of characters of
    the base64 alphabet and pads only, so it is fit for an environment
    variable, and it has four characters for every three characters,
    rounded up, of the minified JSON text. *)
Theorem encoder_token_shape (C : Collaborators) (json_file token : string) :
  google_creditial_encoder C json_file = Ok token ->
  string_forallb is_base64_char token = true /\
  (String.length token mod 4 = 0)%nat /\
  exists text d,
    open_read C json_file = Ok text /\
    json_loads C text = Ok d /\
    String.length token =
      (4 * ((String.length (json_dumps C d) + 2) / 3))%nat.
Proof.
  intros H.
  destruct (google_creditial_encoder_inv C _ _ H)
    as [text [d [Hopen [Hload [Hascii Hords]]]]].
  assert (Hlen : String.length token =
                 (4 * ((String.length (json_dumps C d) + 2) / 3))%nat).
  { rewrite <- (ords_length token), Hords, b64encode_length.
    now rewrite ords_length. }
  split; [|split].
  - apply (string_forallb_ords _ is_base64_byte); [apply is_base64_byte_char|].
    rewrite Hords. apply b64encode_alphabet, ords_ascii, Hascii.
  - rewrite Hlen, Nat.mul_comm. apply Nat.Div0.mod_mul.
  - now exists text, d.
Qed.

Lemma encoder_token_shape_witness :
  string_forallb is_base64_char Demo.secret_token = true /\
  (String.length Demo.secret_token mod 4 = 0)%nat.
Proof.
  destruct (encoder_token_shape Demo.online "client_secret.json"
              Demo.secret_token eq_refl) as [Hchars [Hlen _]].
  split; [exact Hchars|exact Hlen].
Defined.

(** *** Characters the decoder skips *)

Lemma index_of_none (ch : Z) (tbl : list Z) (i : Z) :
  existsb (Z.eqb ch) tbl = false -> index_of ch tbl i = None.
Proof.
  revert i. induction tbl as [|x tbl IH]; intros i; cbn; [reflexivity|].
  intros H. apply orb_false_iff in H as [Hx Hrest].
  rewrite Z.eqb_sym, Hx. now apply IH.
Qed.

Lemma skipped_char_not_decoded (c : ascii) :
  is_base64_char c = false -> is_decoded_byte (ord c) = false.
Proof.
  unfold is_base64_char, is_decoded_byte. intros H.
  apply orb_false_iff in H as [Htable Hpad].
  rewrite Hpad. unfold a2b. now rewrite (index_of_none _ _ _ Htable).
Qed.

(** The decoding loop reads the alphabet characters and the pads of its
    input, and nothing else. *)
Lemma a2b_base64_loop_filter (data : list Z) (quad_pos leftchar pads : Z) :
  a2b_base64_loop quad_pos leftchar pads data =
  a2b_base64_loop quad_pos leftchar pads (filter is_decoded_byte data).
Proof.
  revert quad_pos leftchar pads.
  induction data as [|ch rest IH]; intros quad_pos leftchar pads;
    [reflexivity|].
  cbn [filter]. unfold is_decoded_byte at 1.
  destruct (ch =? BASE64_PAD) eqn:Epad; cbn [orb].
  - cbn [a2b_base64_loop]. rewrite Epad.
    destruct ((2 <=? quad_pos) && (4 <=? quad_pos + (pads + 1)));
      [reflexivity|apply IH].
  - destruct (a2b ch) as [this_ch|] eqn:Ea2b.
    + cbn [a2b_base64_loop]. rewrite Epad, Ea2b.
      destruct (quad_pos =? 0); [apply IH|].
      destruct (quad_pos =? 1); [now rewrite IH|].
      destruct (quad_pos =? 2); now rewrite IH.
    + cbn [a2b_base64_loop]. rewrite Epad, Ea2b. apply IH.
Qed.

Lemma is_ascii_app (s1 s2 : string) :
  is_ascii (s1 ++ s2) = is_ascii s1 && is_ascii s2.
Proof.
  induction s1 as [|c s1 IH]; cbn; [reflexivity|].
  now rewrite IH, andb_assoc.
Qed.

Lemma ords_app (s1 s2 : string) : ords (s1 ++ s2) = (ords s1 ++ ords s2)%list.
Proof. induction s1 as [|c s1 IH]; cbn; [reflexivity|now rewrite IH]. Qed.

Lemma str_encode_ascii_cases (s : string) :
  str_encode_ascii s =
  if is_ascii s then Ok (ords s) else Raise UnicodeEncodeError.
Proof.
  induction s as [|c s IH]; cbn; [reflexivity|].
  destruct (ord c <? 128); cbn; [|reflexivity].
  rewrite IH. destruct (is_ascii s); reflexivity.
Qed.

Lemma b64decode_cases (s : string) :
  b64decode s =
  if is_ascii s
  then a2b_base64_loop 0 0 0 (filter is_decoded_byte (ords s))
  else Raise ValueError.
Proof.
  unfold b64decode. rewrite str_encode_ascii_cases.
  destruct (is_ascii s); [apply a2b_base64_loop_filter|reflexivity].
Qed.

Lemma skipped_string (junk : string) :
  string_forallb is_skipped_char junk = true ->
  is_ascii junk = true /\ filter is_decoded_byte (ords junk) = [].
Proof.
  induction junk as [|c junk IH]; cbn; intros H; [now split|].
  apply andb_true_iff in H as [Hc Hjunk]. destruct (IH Hjunk) as [Ha Hf].
  unfold is_skipped_char in Hc. apply andb_true_iff in Hc as [Hlt Hnot].
  apply negb_true_iff in Hnot.
  rewrite Hlt, Ha, (skipped_char_not_decoded _ Hnot). now split.
Qed.

(** The decoder does not see ascii characters outside the base64 alphabet:
    a token with line breaks or blanks inserted anywhere decodes as the
    token without them does. *)
Theorem decoder_skips_foreign_characters (C : Collaborators)
  (before junk after : string) :
  string_forallb is_skipped_char junk = true ->
  google_creditial_decoder C (before ++ junk ++ after) =
  google_creditial_decoder C (before ++ after).
Proof.
  intros Hjunk. destruct (skipped_string _ Hjunk) as [Hascii Hfilter].
  unfold google_creditial_decoder. rewrite !b64decode_cases.
  rewrite !is_ascii_app, !ords_app, !filter_app, Hascii, Hfilter.
  reflexivity.
Qed.

Lemma decoder_skips_foreign_characters_witness :
  google_creditial_decoder Demo.online
    ("eyJ0eXBlIjoic2VydmljZV9hY2NvdW50Iiwi" ++
     String (ascii_of_nat 10) EmptyString ++
     "cHJvamVjdF9pZCI6ImNzMTAxIn0=") =
  Ok Demo.secret_doc.
Proof.
  rewrite (decoder_skips_foreign_characters Demo.online
             "eyJ0eXBlIjoic2VydmljZV9hY2NvdW50Iiwi"
             (String (ascii_of_nat 10) EmptyString)
             "cHJvamVjdF9pZCI6ImNzMTAxIn0=" eq_refl).
  reflexivity.
Defined.

(** ** The rerun mode *)

Section RerunProperties.

Variable C : Collaborators.
Variable re_run_workflow : string -> Z -> outcome unit.

(** [rerun_latest_workflow] asks once for a rerun of the first matching run
    and returns normally whether the API accepts or refuses; but a
    repository without a matching run makes it raise [TypeError] before any
    call of the API, and a failure of the listing is passed on. *)
Theorem rerun_latest_workflow_outcomes (repo workflow_filename : string) :
  (forall run,
      get_latest_workflow_run C repo workflow_filename = Ok (Some run) ->
      exists accepted,
        rerun_latest_workflow C re_run_workflow repo workflow_filename =
          ([ {| rerun_repo := repo; rerun_run_id := run_id run;
                rerun_accepted := accepted |} ], Ok tt) /\
        (accepted = true <->
         exists u, re_run_workflow repo (run_id run) = Ok u)) /\
  (get_latest_workflow_run C repo workflow_filename = Ok None ->
   rerun_latest_workflow C re_run_workflow repo workflow_filename =
     ([], Raise TypeError)) /\
  (forall e,
      get_latest_workflow_run C repo workflow_filename = Raise e ->
      rerun_latest_workflow C re_run_workflow repo workflow_filename =
        ([], Raise e)).
Proof.
  unfold rerun_latest_workflow. split; [|split].
  - intros run Hrun. rewrite Hrun. cbn [obind].
    destruct (re_run_workflow repo (run_id run)) as [u|e].
    + exists true. split; [reflexivity|]. split; [now exists u|reflexivity].
    + exists false. split; [reflexivity|].
      split; [discriminate|intros [u Hu]; discriminate].
  - intros Hrun. now rewrite Hrun.
  - intros e Hrun. now rewrite Hrun.
Qed.

Lemma rerun_latest_workflow_some (repo workflow_filename : string)
  (run : workflow_run) :
  get_latest_workflow_run C repo workflow_filename = Ok (Some run) ->
  exists accepted,
    rerun_latest_workflow C re_run_workflow repo workflow_filename =
      ([ {| rerun_repo := repo; rerun_run_id := run_id run;
            rerun_accepted := accepted |} ], Ok tt).
Proof.
  intros Hrun. unfold rerun_latest_workflow. rewrite Hrun. cbn [obind].
  destruct (re_run_workflow repo (run_id run)); eexists; reflexivity.
Qed.

Lemma rerun_latest_workflow_none (repo workflow_filename : string) :
  get_latest_workflow_run C repo workflow_filename = Ok None ->
  rerun_latest_workflow C re_run_workflow repo workflow_filename =
    ([], Raise TypeError).
Proof. intros Hrun. unfold rerun_latest_workflow. now rewrite Hrun. Qed.

Lemma rerun_each_with_runs (repos : list string) (workflow_filename : string) :
  (forall repo, In repo repos ->
     exists run,
       get_latest_workflow_run C repo workflow_filename = Ok (Some run)) ->
  snd (rerun_each C re_run_workflow repos workflow_filename) = Ok tt /\
  map rerun_repo (fst (rerun_each C re_run_workflow repos workflow_filename)) =
    repos.
Proof.
  induction repos as [|repo rest IH]; intros Hall; [now split|].
  destruct (Hall repo (or_introl eq_refl)) as [run Hrun].
  destruct (rerun_latest_workflow_some repo workflow_filename run Hrun)
    as [accepted Hcall].
  cbn [rerun_each]. rewrite Hcall.
  destruct (IH (fun r Hr => Hall r (or_intror Hr))) as [Hok Hrepos].
  destruct (rerun_each C re_run_workflow rest workflow_filename) as [calls o].
  cbn [fst snd] in *. split; [exact Hok|]. cbn. now rewrite Hrepos.
Qed.

(** [rerun_all_worflows_for_assignment] asks for one rerun per repository
    in order, going on when the API refuses one; at the first repository
    without a matching run it stops with [TypeError], and the repositories
    after it are not rerun. *)
Theorem rerun_stops_at_repository_without_run
  (before after : list string) (bad workflow_filename : string) :
  (forall repo, In repo before ->
     exists run,
       get_latest_workflow_run C repo workflow_filename = Ok (Some run)) ->
  get_latest_workflow_run C bad workflow_filename = Ok None ->
  snd (rerun_each C re_run_workflow (before ++ bad :: after) workflow_filename)
    = Raise TypeError /\
  map rerun_repo
    (fst (rerun_each C re_run_workflow (before ++ bad :: after)
            workflow_filename)) = before /\
  (forall org assignment_name,
      filter_repos C org assignment_name = Ok (before ++ bad :: after)%list ->
      rerun_all_worflows_for_assignment C re_run_workflow org assignment_name
        workflow_filename =
      rerun_each C re_run_workflow (before ++ bad :: after) workflow_filename).
Proof.
  intros Hbefore Hbad.
  assert (Hrun : snd (rerun_each C re_run_workflow (before ++ bad :: after)
                        workflow_filename) = Raise TypeError /\
                 map rerun_repo
                   (fst (rerun_each C re_run_workflow (before ++ bad :: after)
                           workflow_filename)) = before).
  { induction before as [|repo rest IH].
    - cbn [app rerun_each].
      rewrite (rerun_latest_workflow_none bad workflow_filename Hbad).
      now split.
    - destruct (Hbefore repo (or_introl eq_refl)) as [run Hrun].
      destruct (rerun_latest_workflow_some repo workflow_filename run Hrun)
        as [accepted Hcall].
      cbn [app rerun_each]. rewrite Hcall.
      destruct (IH (fun r Hr => Hbefore r (or_intror Hr))) as [Hraise Hrepos].
      destruct (rerun_each C re_run_workflow (rest ++ bad :: after)
                  workflow_filename) as [calls o].
      cbn [fst snd] in *. split; [exact Hraise|]. cbn. now rewrite Hrepos. }
  destruct Hrun as [Hraise Hrepos]. split; [exact Hraise|].
  split; [exact Hrepos|].
  intros org assignment_name Hrepos'.
  unfold rerun_all_worflows_for_assignment. now rewrite Hrepos'.
Qed.

End RerunProperties.

Lemma rerun_latest_workflow_outcomes_witness :
  rerun_latest_workflow Demo.online demo_re_run_workflow "hw1-bob" "main.yml" =
    ([ {| rerun_repo := "hw1-bob"; rerun_run_id := 21;
          rerun_accepted := false |} ], Ok tt) /\
  rerun_latest_workflow Demo.online demo_re_run_workflow "hw1-nobody"
    "main.yml" = ([], Raise TypeError).
Proof.
  destruct (rerun_latest_workflow_outcomes Demo.online demo_re_run_workflow
              "hw1-bob" "main.yml") as [Hsome _].
  destruct (rerun_latest_workflow_outcomes Demo.online demo_re_run_workflow
              "hw1-nobody" "main.yml") as [_ [Hnone _]].
  split; [|apply Hnone; reflexivity].
  destruct (Hsome _ eq_refl) as [accepted [Hcall _]].
  rewrite Hcall. cbn in Hcall. injection Hcall as <-. reflexivity.
Defined.

Lemma rerun_stops_at_repository_without_run_witness :
  rerun_each Demo.online demo_re_run_workflow
    ["hw1-alice"; "hw1-bob"; "hw1-docsonly"; "hw1-carol"] "main.yml" =
    ([ {| rerun_repo := "hw1-alice"; rerun_run_id := 11;
          rerun_accepted := true |};
       {| rerun_repo := "hw1-bob"; rerun_run_id := 21;
          rerun_accepted := false |} ], Raise TypeError).
Proof.
  destruct (rerun_stops_at_repository_without_run Demo.online
              demo_re_run_workflow ["hw1-alice"; "hw1-bob"] ["hw1-carol"]
              "hw1-docsonly" "main.yml") as [Hraise [Hrepos _]].
  - intros repo [<-|[<-|[]]]; eexists; reflexivity.
  - reflexivity.
  - cbn [app] in Hraise, Hrepos.
    destruct (rerun_each Demo.online demo_re_run_workflow
                ["hw1-alice"; "hw1-bob"; "hw1-docsonly"; "hw1-carol"]
                "main.yml") as [calls o] eqn:E.
    cbn [fst snd] in Hraise. subst o. clear Hrepos.
    vm_compute in E. now injection E as <-.
Defined.

(** ** Owner-handles and letter case *)

Lemma lower_ascii_idempotent (c : ascii) :
  lower_ascii (lower_ascii c) = lower_ascii c.
Proof. destruct c as [[] [] [] [] [] [] [] []]; reflexivity. Qed.

Lemma lower_ascii_hyphen (c : ascii) :
  Ascii.eqb (lower_ascii c) "-" = Ascii.eqb c "-".
Proof. destruct c as [[] [] [] [] [] [] [] []]; reflexivity. Qed.

Lemma lower_idempotent (s : string) : lower (lower s) = lower s.
Proof.
  induction s as [|c s IH]; cbn; [reflexivity|].
  now rewrite lower_ascii_idempotent, IH.
Qed.

Lemma lower_app (s1 s2 : string) : lower (s1 ++ s2) = lower s1 ++ lower s2.
Proof. induction s1 as [|c s1 IH]; cbn; [reflexivity|now rewrite IH]. Qed.

Lemma split_lower (s : string) :
  split "-" (lower s) = map lower (split "-" s).
Proof.
  induction s as [|c s IH]; [reflexivity|].
  cbn [lower split]. rewrite lower_ascii_hyphen, IH.
  destruct (Ascii.eqb c "-"); [reflexivity|].
  pose proof (split_not_nil "-" s) as Hn.
  destruct (split "-" s) as [|p ps]; [contradiction|reflexivity].
Qed.

Lemma join_lower (pieces : list string) :
  join "-" (map lower pieces) = lower (join "-" pieces).
Proof.
  induction pieces as [|p ps IH]; [reflexivity|].
  destruct ps as [|q ps]; [reflexivity|].
  cbn [map join] in *. rewrite IH, !lower_app. reflexivity.
Qed.

(** The owner-handle [strip_github_username] derives is in lower case (it
    is a fixed point of [lower]) and does not depend on the letter case of
    the repository name. *)
Theorem strip_github_username_ignores_case (repo : string) :
  lower (strip_github_username repo) = strip_github_username repo /\
  strip_github_username (lower repo) = strip_github_username repo /\
  (forall other,
      lower other = lower repo ->
      strip_github_username other = strip_github_username repo).
Proof.
  assert (Hlower : forall r,
             strip_github_username (lower r) = strip_github_username r).
  { intros r. unfold strip_github_username.
    rewrite split_lower.
    replace (tl (map lower (split "-" r))) with (map lower (tl (split "-" r)))
      by (destruct (split "-" r); reflexivity).
    rewrite join_lower. apply lower_idempotent. }
  split; [apply lower_idempotent|]. split; [apply Hlower|].
  intros other Hother. now rewrite <- (Hlower other), Hother, Hlower.
Qed.

Lemma strip_github_username_ignores_case_witness :
  strip_github_username "HW1-Alice" = strip_github_username "hw1-alice".
Proof.
  destruct (strip_github_username_ignores_case "hw1-alice") as [_ [_ H]].
  apply H. reflexivity.
Defined.

(** ** Repeated user names *)

Lemma loc_several (df : dataframe) (label : string) (row1 row2 : string * string)
  (rows : list (string * string)) :
  filter (fun row => String.eqb (fst row) label) df = row1 :: row2 :: rows ->
  loc df label = Ok (Series (map snd (row1 :: row2 :: rows))).
Proof. intros H. unfold loc. now rewrite H. Qed.

(** Two records whose user names are equal up to letter case are both kept
    by the loaders: the lookup of that handle returns a series that lists
    the EIDs of both, neither a single EID nor a [KeyError]. *)
Theorem repeated_user_names_give_a_series
  (before between after : list identity_record) (r1 r2 : identity_record)
  (handle : string) :
  lower (col_Github_Username r1) = lower handle ->
  lower (col_Github_Username r2) = lower handle ->
  exists eids,
    lookup_eid
      (Some (lowered_and_indexed
               (before ++ r1 :: between ++ r2 :: after)%list))
      (lower handle) = Ok (Series eids) /\
    In (lower (col_EID r1)) eids /\
    In (lower (col_EID r2)) eids /\
    (2 <= List.length eids)%nat.
Proof.
  intros H1 H2. cbn [lookup_eid].
  set (keep := fun row : string * string => String.eqb (fst row) (lower handle)).
  assert (Hfilter :
            filter keep
              (lowered_and_indexed (before ++ r1 :: between ++ r2 :: after)) =
            (filter keep (lowered_and_indexed before) ++
             (lower handle, lower (col_EID r1)) ::
             filter keep (lowered_and_indexed between) ++
             (lower handle, lower (col_EID r2)) ::
             filter keep (lowered_and_indexed after))%list).
  { unfold lowered_and_indexed.
    rewrite map_app, filter_app. cbn [map filter].
    rewrite map_app, filter_app. cbn [map filter].
    unfold keep at 2 4. cbn [fst]. rewrite H1, H2, String.eqb_refl.
    reflexivity. }
  assert (Hshape : exists row1 row2 rows,
             filter keep
               (lowered_and_indexed (before ++ r1 :: between ++ r2 :: after)) =
             row1 :: row2 :: rows).
  { rewrite Hfilter.
    destruct (filter keep (lowered_and_indexed before)) as [|x [|y xs]];
      cbn [app].
    - destruct (filter keep (lowered_and_indexed between)) as [|y ys];
        cbn [app]; now eexists _, _, _.
    - now eexists _, _, _.
    - now eexists _, _, _. }
  destruct Hshape as [row1 [row2 [rows Hrows]]].
  exists (map snd (row1 :: row2 :: rows)).
  split; [now apply loc_several|].
  rewrite <- Hrows, Hfilter. repeat split.
  - rewrite map_app. apply in_or_app. right. now left.
  - rewrite map_app. apply in_or_app. right. right.
    rewrite map_app. apply in_or_app. right. now left.
  - rewrite <- Hfilter, Hrows. cbn. lia.
Qed.

Lemma repeated_user_names_give_a_series_witness :
  lookup_eid
    (Some (lowered_and_indexed
             [ {| col_Github_Username := "Alice"; col_EID := "AA111" |};
               {| col_Github_Username := "bob"; col_EID := "bb222" |};
               {| col_Github_Username := "ALICE"; col_EID := "zz999" |} ]))
    (strip_github_username "hw1-alice") = Ok (Series ["aa111"; "zz999"]).
Proof.
  destruct (repeated_user_names_give_a_series []
              [ {| col_Github_Username := "bob"; col_EID := "bb222" |} ] []
              {| col_Github_Username := "Alice"; col_EID := "AA111" |}
              {| col_Github_Username := "ALICE"; col_EID := "zz999" |}
              "alice" eq_refl eq_refl) as [eids [Hlookup _]].
  cbn in Hlookup. injection Hlookup as <-. reflexivity.
Defined.

(** ** The grading run as a whole *)

Lemma print_repos_run (repos : list string) (g : globals) :
  print_repos repos g =
    (Ok tt, {| score := score g;
               trace := trace g ++ map (fun repo => Printed (MsgRepo repo)) repos |}).
Proof.
  revert g. induction repos as [|repo rest IH]; intros g.
  - cbn. rewrite app_nil_r. now destruct g.
  - cbn [print_repos]. unfold bind, print, emit. rewrite IH.
    cbn [score trace map]. now rewrite <- app_assoc.
Qed.

Lemma read_username_map_prints (C : Collaborators)
  (creditials classname : string) (g g1 : globals)
  (username_map : option dataframe) :
  read_username_map C (Some creditials) (Some classname) g =
    (Ok username_map, g1) ->
  score g1 = score g /\
  (trace g1 = trace g \/
   trace g1 = (trace g ++ [Printed MsgErrorReadingSheet])%list).
Proof.
  unfold read_username_map.
  destruct (os_path_isfile C "username_map.csv").
  - unfold bind, lift, ret.
    destruct (pd_read_csv C "username_map.csv"); [|discriminate].
    intros H. injection H as _ <-. split; [reflexivity|now left].
  - destruct (username_map_from_google_sheet C creditials classname) as [df|e].
    + intros H. injection H as _ <-. split; [reflexivity|now left].
    + destruct (is_ValueError e); [|discriminate].
      intros H. injection H as _ <-. split; [reflexivity|now right].
Qed.

(** [grading_run] loads the identity mapping first, which prints at most
    the error line of the sheet; then it lists the repositories, announces
    the assignment and every repository found, and only then grades them in
    the order of the listing.  A failure of the listing ends the run with
    nothing announced: the trace holds what the loading printed, and no
    more. *)
Theorem grading_run_announces_then_grades (C : Collaborators) (args : cli_args)
  (client_secret org : string) (g g1 : globals)
  (username_map : option dataframe) :
  read_username_map C (Some client_secret) (Some org) g = (Ok username_map, g1) ->
  (score g1 = score g /\
   (trace g1 = trace g \/
    trace g1 = (trace g ++ [Printed MsgErrorReadingSheet])%list)) /\
  (forall repos,
      filter_repos C org (arg_assignment_name args) = Ok repos ->
      grading_run C args client_secret org g =
        grade_repos C args username_map repos
          {| score := score g1;
             trace := trace g1 ++
                      Printed (MsgGrading (arg_assignment_name args))
                      :: Printed MsgFoundRepos
                      :: map (fun repo => Printed (MsgRepo repo)) repos |}) /\
  (forall e,
      filter_repos C org (arg_assignment_name args) = Raise e ->
      grading_run C args client_secret org g = (Raise e, g1)).
Proof.
  intros Hmap. split; [now apply (read_username_map_prints C _ _ _ _ _ Hmap)|].
  split.
  - intros repos Hrepos. unfold grading_run.
    unfold bind at 1. rewrite Hmap.
    unfold bind at 1, lift. rewrite Hrepos.
    unfold bind at 1, print at 1, emit.
    unfold bind at 1, print at 1, emit. cbn [score trace].
    unfold bind at 1. rewrite print_repos_run. cbn [score trace].
    now rewrite <- !app_assoc.
  - intros e Hrepos. unfold grading_run, bind, lift. now rewrite Hmap, Hrepos.
Qed.

Lemma grading_run_announces_then_grades_witness :
  grading_run Demo.online Demo.args_plain Demo.secret_token "cs101"
    initial_globals =
  grade_repos Demo.online Demo.args_plain Demo.identity_map
    ["hw1-alice"; "hw1-bob"; "hw1-carol"; "hw1-johndoe"]
    {| score := None;
       trace := [Printed (MsgGrading "hw1"); Printed MsgFoundRepos;
                 Printed (MsgRepo "hw1-alice"); Printed (MsgRepo "hw1-bob");
                 Printed (MsgRepo "hw1-carol");
                 Printed (MsgRepo "hw1-johndoe")] |}.
Proof.
  destruct (grading_run_announces_then_grades Demo.online Demo.args_plain
              Demo.secret_token "cs101" initial_globals initial_globals
              Demo.identity_map eq_refl) as [_ [Hrun _]].
  apply (Hrun ["hw1-alice"; "hw1-bob"; "hw1-carol"; "hw1-johndoe"] eq_refl).
Defined.

(** ** Witnesses of the lemmas on the loop *)

Lemma unrecognized_conclusion_posts_previous_score_witness :
  In (EditCalled 502 (PyInt 0))
     (trace (snd (grade_repo Demo.online Demo.args_plain Demo.identity_map
                    "hw1-bob" {| score := Some (PyInt 0); trace := [] |}))).
Proof.
  apply (unrecognized_conclusion_posts_previous_score Demo.online
           Demo.args_plain Demo.identity_map "hw1-bob"
           {| score := Some (PyInt 0); trace := [] |}
           (Some "2024-01-15T22:00:00-06:00") "cancelled" 1%float 502
           (PyInt 0)); try reflexivity.
  do 4 eexists. repeat split; reflexivity.
Defined.

Lemma unrecognized_conclusion_first_turn_witness :
  exists evs,
    trace (snd (grade_repo Demo.online Demo.args_plain Demo.identity_map
                  "hw1-bob" initial_globals)) = ([] ++ evs)%list /\
    forall canvas_id v, ~ In (EditCalled canvas_id v) evs.
Proof.
  apply (unrecognized_conclusion_first_turn Demo.online Demo.args_plain
           Demo.identity_map "hw1-bob" initial_globals
           (Some "2024-01-15T22:00:00-06:00") "cancelled"); reflexivity.
Defined.

Lemma grade_repos_returns_witness :
  fst (grade_repos Demo.online Demo.args_due Demo.identity_map
         ["hw1-alice"; "hw1-johndoe"; "hw1-docsonly"] initial_globals) = Ok tt.
Proof.
  apply (grade_repos_returns Demo.online Demo.args_due Demo.identity_map
           ["hw1-alice"; "hw1-johndoe"; "hw1-docsonly"] initial_globals
           _ 11 eq_refl eq_refl).
  intros repo [<-|[<-|[<-|[]]]].
  - exists (Some "2024-01-15T22:00:00-06:00"), (Some "success").
    split; [reflexivity|]. intros _. now exists 0.5%float.
  - exists (Some "2024-01-15T22:00:00-06:00"), (Some "failure").
    split; [reflexivity|]. intros _. now exists 0.5%float.
  - exists None, None. split; [reflexivity|]. intros H. now elim H.
Defined.

Lemma at_most_one_edit_per_repository_witness :
  exists segments,
    trace (snd (grade_repos Demo.online Demo.args_plain Demo.identity_map
                  ["hw1-alice"; "hw1-johndoe"; "hw1-carol"] initial_globals)) =
      ([] ++ List.concat segments)%list /\
    Forall2 (turn_segment Demo.online Demo.identity_map)
      (firstn (List.length segments)
         ["hw1-alice"; "hw1-johndoe"; "hw1-carol"]) segments.
Proof.
  apply (at_most_one_edit_per_repository Demo.online Demo.args_plain
           Demo.identity_map ["hw1-alice"; "hw1-johndoe"; "hw1-carol"]
           initial_globals).
Defined.
